(** * ChessMate: the physical move planner

    A shallow embedding of [backend/path_finder]: the coordinate converter
    ([coordinate_converter.py]), the path planner ([path_planner.py]) and the
    command dispatch of [main.py], with the properties of the planner's
    specification stated over them; then the notation parser
    ([chess_parser.py]) and the polling loop of [backend/call_robot.py].

    Conventions.
    - Python [int] is [Z]; [//] and [%] with the positive divisor 2 are
      [Z.div] and [Z.modulo] (both floor, like Python's).
    - A position dict [{"x": _, "y": _}] is the record [Pos].
    - Python [str] is [string] (ASCII); [str(n)] and [f"{n}"] of an integer
      are the decimal printer of the standard library.
    - A raised exception is the [Raise_] constructor of [result].
    - A command of a choreography is a [Command]; [wire] gives the very text
      the Python list holds ([f"X: {dx} Y: {dy}"], ["raise"], ...).
    - A compiled pattern of the parser is the function that decides
      [pattern.match(s)] and returns the groups the code reads. *)

From Stdlib Require Import ZArith List String Ascii Bool Lia.
From Stdlib Require Import DecimalString.
Import ListNotations.
Open Scope string_scope.
Open Scope list_scope.
Open Scope Z_scope.

(** ** Exceptions *)

Inductive exn : Type :=
| ValueError (msg : string).

Inductive result (A : Type) : Type :=
| Ok (a : A)
| Raise_ (e : exn).
Arguments Ok {A} a.
Arguments Raise_ {A} e.

Definition bind {A B : Type} (m : result A) (k : A -> result B) : result B :=
  match m with
  | Ok a => k a
  | Raise_ e => Raise_ e
  end.

Notation "x <- m ;; k" := (bind m (fun x => k))
  (at level 61, m at next level, right associativity).

(** ** Python string helpers *)

(** [str(n)] for an integer. *)
Definition str (n : Z) : string := NilZero.string_of_int (Z.to_int n).

(** [c.lower()] on one ASCII character. *)
Definition lower (c : ascii) : ascii :=
  let n := nat_of_ascii c in
  if (Nat.leb 65 n && Nat.leb n 90)%bool then ascii_of_nat (n + 32) else c.

(** [s.index(c)] for a character [c]; [None] when [c not in s]. *)
Fixpoint index (c : ascii) (s : string) : option Z :=
  match s with
  | EmptyString => None
  | String d rest =>
      if Ascii.eqb c d then Some 0
      else match index c rest with
           | Some i => Some (i + 1)
           | None => None
           end
  end.

(** [s[i]] for [0 <= i < len(s)]. *)
Definition char_at (s : string) (i : Z) : option ascii :=
  if i <? 0 then None else String.get (Z.to_nat i) s.

(** ** coordinate_converter.py *)

Record Pos : Type := mkPos { x : Z; y : Z }.

Definition Pos_eqb (p q : Pos) : bool :=
  (x p =? x q) && (y p =? y q).

Module CoordinateConverter.

(** The attributes set by [__init__].  Only the two capture lists change
    afterwards, so they are the state; the others are constants. *)
Definition files : string := "abcdefgh".
Definition ranks : string := "12345678".
Definition grid_width : Z := 17.
Definition grid_height : Z := 19.
Definition square_size : Z := 2.
Definition white_discard_y : Z := 0.
Definition black_discard_y : Z := 18.

Record t : Type := mk {
  white_captured_pieces : list Z;
  black_captured_pieces : list Z
}.

Definition init : t :=
  {| white_captured_pieces := []; black_captured_pieces := [] |}.

Definition invalid_square (square : string) : exn :=
  ValueError ("Invalid square notation: " ++ square)%string.

Definition chess_to_grid (square : string) (use_channel : bool) : result Pos :=
  match square with
  | String c0 (String c1 EmptyString) =>
      let file_char := lower c0 in
      let rank_char := c1 in
      match index file_char files, index rank_char ranks with
      | Some file_index, Some rank_index =>
          if use_channel then
            Ok {| x := file_index * square_size;
                  y := rank_index * square_size + 1 |}
          else
            Ok {| x := file_index * square_size + 1;
                  y := rank_index * square_size + 2 |}
      | _, _ => Raise_ (invalid_square square)
      end
  | _ => Raise_ (invalid_square square)
  end.

Definition out_of_range (x y : Z) : exn :=
  ValueError ("Grid coordinates out of range: ("
              ++ str x ++ ", " ++ str y ++ ")")%string.

Definition no_square (x y : Z) : exn :=
  ValueError ("Grid coordinates don't map to valid chess square: ("
              ++ str x ++ ", " ++ str y ++ ")")%string.

Definition grid_to_chess (x y : Z) : result string :=
  if negb ((0 <=? x) && (x <=? 16)) || negb ((0 <=? y) && (y <=? 18)) then
    Raise_ (out_of_range x y)
  else
    let file_index := (x - 1) / square_size in
    let rank_index := (y - 2) / square_size in
    if negb ((0 <=? file_index) && (file_index <=? 7))
       || negb ((0 <=? rank_index) && (rank_index <=? 7)) then
      Raise_ (no_square x y)
    else
      (* files[file_index]: the index is within 0..7 here, so the
         lookup cannot fail and the last branch is never taken *)
      match char_at files file_index with
      | Some file_char => Ok (String file_char (str (rank_index + 1)))
      | None => Raise_ (no_square x y)
      end.

Definition get_home_position : Pos := {| x := 0; y := 0 |}.

Definition is_valid_grid_position (x y : Z) : bool :=
  (0 <=? x) && (x <=? 16) && ((0 <=? y) && (y <=? 18)).

(** Python's [max] of a non-empty list, given as head and tail. *)
Definition max_of (h : Z) (tl : list Z) : Z := fold_left Z.max tl h.

(** The slot chosen from the list of slots already taken. *)
Definition next_x (captured_list : list Z) : Z :=
  match captured_list with
  | [] => 1
  | h :: tl =>
      let next_x := max_of h tl + 2 in
      if next_x >? 15 then 1 else next_x
  end.

(** Returns the position and the converter after [captured_list.append]. *)
Definition get_next_discard_position (is_white_capture : bool) (self : t)
  : Pos * t :=
  if is_white_capture then
    let captured_list := black_captured_pieces self in
    let nx := next_x captured_list in
    ({| x := nx; y := black_discard_y |},
     {| white_captured_pieces := white_captured_pieces self;
        black_captured_pieces := captured_list ++ [nx] |})
  else
    let captured_list := white_captured_pieces self in
    let nx := next_x captured_list in
    ({| x := nx; y := white_discard_y |},
     {| white_captured_pieces := captured_list ++ [nx];
        black_captured_pieces := black_captured_pieces self |}).

Definition reset_discard_tracking (self : t) : t := init.

(** The dict of [get_square_corners]. *)
Record Corners : Type := mkCorners {
  bottom_left : Pos;
  bottom_right : Pos;
  top_left : Pos;
  top_right : Pos
}.

(** [chess_to_grid(square)] is called with the default [use_channel=True],
    so [center] holds the channel point of the square. *)
Definition get_square_corners (square : string) : result Corners :=
  center <- chess_to_grid square true ;;
  Ok {| bottom_left := {| x := x center - 1; y := y center - 1 |};
        bottom_right := {| x := x center + 1; y := y center - 1 |};
        top_left := {| x := x center - 1; y := y center + 1 |};
        top_right := {| x := x center + 1; y := y center + 1 |} |}.

(** The dict of [get_edge_points]. *)
Record Edges : Type := mkEdges {
  edge_left : Pos;    (* "left" *)
  edge_right : Pos;   (* "right" *)
  edge_bottom : Pos;  (* "bottom" *)
  edge_top : Pos      (* "top" *)
}.

Definition get_edge_points (square : string) : result Edges :=
  center <- chess_to_grid square true ;;
  Ok {| edge_left := {| x := x center - 1; y := y center |};
        edge_right := {| x := x center + 1; y := y center |};
        edge_bottom := {| x := x center; y := y center - 1 |};
        edge_top := {| x := x center; y := y center + 1 |} |}.

(** The dict of [distance_between_squares]; its keys are "x", "y" and
    "manhattan". *)
Record Distance : Type := mkDistance {
  dist_x : Z;
  dist_y : Z;
  manhattan : Z
}.

Definition distance_between_squares (from_square to_square : string)
  : result Distance :=
  from_coords <- chess_to_grid from_square true ;;
  to_coords <- chess_to_grid to_square true ;;
  let dx := x to_coords - x from_coords in
  let dy := y to_coords - y from_coords in
  let manhattan := Z.abs dx + Z.abs dy in
  Ok {| dist_x := dx; dist_y := dy; manhattan := manhattan |}.

End CoordinateConverter.

Import CoordinateConverter.

(** ** Commands *)

(** One entry of a choreography.  The Python lists hold the wire text
    itself; [wire] gives it back. *)
Inductive Command : Type :=
| Move (dx dy : Z)          (* f"X: {dx} Y: {dy}" *)
| Raise                     (* "raise" *)
| Lower                     (* "lower" *)
| Home                      (* "home" *)
| Promote (piece : string). (* f"PROMOTE:{promotion_piece}" *)

Definition wire (c : Command) : string :=
  match c with
  | Move dx dy => ("X: " ++ str dx ++ " Y: " ++ str dy)%string
  | Raise => "raise"
  | Lower => "lower"
  | Home => "home"
  | Promote piece => ("PROMOTE:" ++ piece)%string
  end.

(** ** path_planner.py *)

Module PathPlanner.

(** [self.converter] is a converter of the planner's own; the planner only
    calls [chess_to_grid] and [get_home_position] on it, which read no
    state, so the planner's methods are pure functions. *)
Definition home_position : Pos := get_home_position.

Definition _plan_discard_movement (from_pos discard_pos : Pos) : list Command :=
  let commands := [] in
  let channel_y := if y from_pos mod 2 =? 0 then y from_pos - 1 else y from_pos in
  let channel_dy := channel_y - y from_pos in
  let commands :=
    if negb (channel_dy =? 0) then commands ++ [Move 0 channel_dy] else commands in
  let dx := x discard_pos - x from_pos in
  let commands :=
    if negb (dx =? 0) then commands ++ [Move dx 0] else commands in
  let target_channel_y := 1 in
  let final_dy := target_channel_y - channel_y in
  let commands :=
    if negb (final_dy =? 0) then commands ++ [Move 0 final_dy] else commands in
  commands.

Definition _plan_horizontal_edge_movement (from_pos to_pos : Pos) (dx dy : Z)
  : list Command :=
  let commands := [] in
  let channel_y :=
    if (y from_pos mod 2 =? 0) && (dy >=? 0) then y from_pos + 1
    else if y from_pos mod 2 =? 0 then y from_pos - 1
    else y from_pos in
  let channel_y :=
    if channel_y mod 2 =? 0 then channel_y + (if dy >=? 0 then 1 else -1)
    else channel_y in
  let channel_dy := channel_y - y from_pos in
  let commands :=
    if negb (channel_dy =? 0) then commands ++ [Move 0 channel_dy] else commands in
  let target_channel_x := if x to_pos mod 2 =? 1 then x to_pos - 1 else x to_pos in
  let horizontal_dx := target_channel_x - x from_pos in
  let commands :=
    if negb (horizontal_dx =? 0) then commands ++ [Move horizontal_dx 0]
    else commands in
  let target_channel_y := if y to_pos mod 2 =? 0 then y to_pos - 1 else y to_pos in
  let vertical_dy := target_channel_y - channel_y in
  let commands :=
    if negb (vertical_dy =? 0) then commands ++ [Move 0 vertical_dy]
    else commands in
  commands.

Definition _plan_vertical_edge_movement (from_pos to_pos : Pos) (dx dy : Z)
  : list Command :=
  let commands := [] in
  let channel_x :=
    if (x from_pos mod 2 =? 1) && (dx >=? 0) then x from_pos + 1
    else if x from_pos mod 2 =? 1 then x from_pos - 1
    else x from_pos in
  let channel_x :=
    if channel_x mod 2 =? 1 then channel_x + (if dx >=? 0 then 1 else -1)
    else channel_x in
  let channel_dx := channel_x - x from_pos in
  let commands :=
    if negb (channel_dx =? 0) then commands ++ [Move channel_dx 0] else commands in
  let target_channel_y := if y to_pos mod 2 =? 0 then y to_pos - 1 else y to_pos in
  let vertical_dy := target_channel_y - y from_pos in
  let commands :=
    if negb (vertical_dy =? 0) then commands ++ [Move 0 vertical_dy]
    else commands in
  let target_channel_x := if x to_pos mod 2 =? 1 then x to_pos - 1 else x to_pos in
  let horizontal_dx := target_channel_x - channel_x in
  let commands :=
    if negb (horizontal_dx =? 0) then commands ++ [Move horizontal_dx 0]
    else commands in
  commands.

Definition _plan_edge_movement (from_pos to_pos : Pos) (carrying_piece : bool)
  : list Command :=
  let dx := x to_pos - x from_pos in
  let dy := y to_pos - y from_pos in
  if negb carrying_piece then
    if negb (dx =? 0) || negb (dy =? 0) then [Move dx dy] else []
  else
    if Z.abs dx >=? Z.abs dy then
      _plan_horizontal_edge_movement from_pos to_pos dx dy
    else
      _plan_vertical_edge_movement from_pos to_pos dx dy.

Definition castling_pairs : list (string * string) :=
  [("e1", "g1"); ("e1", "c1"); ("e8", "g8"); ("e8", "c8")].

Definition _is_castling_move (from_square to_square : string) : bool :=
  existsb (fun p => String.eqb from_square (fst p) && String.eqb to_square (snd p))
          castling_pairs.

Definition _plan_castling_path (king_from king_to : string) (is_white_move : bool)
  : result (list Command) :=
  let '(rook_from, rook_to) :=
    if String.eqb king_to "g1" || String.eqb king_to "g8" then
      (if is_white_move then "h1" else "h8", if is_white_move then "f1" else "f8")
    else
      (if is_white_move then "a1" else "a8", if is_white_move then "d1" else "d8") in
  king_from_coords <- chess_to_grid king_from false ;;
  king_to_coords <- chess_to_grid king_to false ;;
  rook_from_coords <- chess_to_grid rook_from false ;;
  rook_to_coords <- chess_to_grid rook_to false ;;
  Ok ([Lower; Home]
      ++ _plan_edge_movement home_position king_from_coords false
      ++ [Raise]
      ++ _plan_edge_movement king_from_coords king_to_coords true
      ++ [Move 1 1]
      ++ [Lower]
      ++ [Home]
      ++ _plan_edge_movement home_position rook_from_coords false
      ++ [Raise]
      ++ _plan_edge_movement rook_from_coords rook_to_coords true
      ++ [Move 1 1]
      ++ [Lower]).

(** [board_state] is never read and is left out. *)
Definition plan_path (from_square to_square : string)
           (is_capture is_white_move : bool) : result (list Command) :=
  if _is_castling_move from_square to_square then
    _plan_castling_path from_square to_square is_white_move
  else
    from_coords <- chess_to_grid from_square false ;;
    to_coords <- chess_to_grid to_square false ;;
    let path := [Lower; Home] in
    let path :=
      if is_capture then
        let discard_pos := {| x := 1; y := 0 |} in
        (path
         ++ _plan_edge_movement home_position to_coords false
         ++ [Raise]
         ++ _plan_discard_movement to_coords discard_pos
         ++ [Move 0 (-1)]
         ++ [Lower]
         ++ [Home])
      else path in
    Ok (path
        ++ _plan_edge_movement home_position from_coords false
        ++ [Raise]
        ++ _plan_edge_movement from_coords to_coords true
        ++ [Move 1 1]
        ++ [Lower]).

End PathPlanner.

Import PathPlanner.

(** ** main.py: the serial link and the dispatch loop *)

(** [s.strip()]: ASCII white space is removed at both ends. *)
Definition is_space (c : ascii) : bool :=
  let n := nat_of_ascii c in
  (Nat.leb 9 n && Nat.leb n 13) || (Nat.leb 28 n && Nat.leb n 32).

Fixpoint lstrip (s : string) : string :=
  match s with
  | EmptyString => EmptyString
  | String c rest => if is_space c then lstrip rest else s
  end.

Fixpoint rstrip (s : string) : string :=
  match s with
  | EmptyString => EmptyString
  | String c rest =>
      match rstrip rest with
      | EmptyString => if is_space c then EmptyString else String c EmptyString
      | kept => String c kept
      end
  end.

Definition strip (s : string) : string := rstrip (lstrip s).

(** [s.startswith(p)]. *)
Definition startswith (s p : string) : bool := String.prefix p s.

(** What the controller's side of the link delivers to one [readline]: a line
    of text, or an exception raised by the read (its message is kept). *)
Inductive Event : Type :=
| Line (text : string)
| Fault (msg : string).

(** An open [serial.Serial]: the lines still to arrive, what has been written
    so far, and the exception a [write] raises, if the port refuses writes. *)
Record Serial : Type := mkSerial {
  write_error : option string;
  rx : list Event;
  tx : list string
}.

(** The globals of [main.py] that change: the connection ([None] in
    simulation mode), the module's converter, and what has been printed. *)
Record World : Type := mkWorld {
  arduino : option Serial;
  converter : CoordinateConverter.t;
  stdout : list string
}.

Definition print (line : string) (w : World) : World :=
  {| arduino := arduino w; converter := converter w;
     stdout := stdout w ++ [line] |}.

Definition with_arduino (s : Serial) (w : World) : World :=
  {| arduino := Some s; converter := converter w; stdout := stdout w |}.

(** A call either returns or waits for ever. *)
Inductive outcome (A : Type) : Type :=
| Returns (a : A)
| Hangs.
Arguments Returns {A} a.
Arguments Hangs {A}.

Definition send_error (command msg : string) : string :=
  ("Error sending command '" ++ command ++ "': " ++ msg)%string.

(** The [while True] loop of [send_command]: it polls until a line starts
    with [Done] or [Error]; when nothing more ever arrives it never ends. *)
Fixpoint await_ack (command : string) (pending : list Event)
  : outcome (bool * list Event * list string) :=
  match pending with
  | [] => Hangs
  | Line text :: rest =>
      let response := strip text in
      if startswith response "Done" then Returns (true, rest, [])
      else if startswith response "Error" then
        Returns (false, rest, [("Arduino error: " ++ response)%string])
      else await_ack command rest
  | Fault msg :: rest => Returns (false, rest, [send_error command msg])
  end.

(** [send_command(arduino, command)]; the connection passed is always the
    global [arduino], so it is read from the world. *)
Definition send_command (command : string) (w : World) : outcome (bool * World) :=
  match arduino w with
  | None => Returns (true, print ("SIMULATION: " ++ command)%string w)
  | Some conn =>
      match write_error conn with
      | Some msg => Returns (false, print (send_error command msg) w)
      | None =>
          let sent := tx conn ++ [(command ++ String "010" EmptyString)%string] in
          match await_ack command (rx conn) with
          | Hangs => Hangs
          | Returns (ok, rest, printed) =>
              let conn' := {| write_error := None; rx := rest; tx := sent |} in
              let w' := with_arduino conn' w in
              Returns (ok, {| arduino := arduino w'; converter := converter w';
                              stdout := stdout w' ++ printed |})
          end
      end
  end.

(** The [for] loop of [execute_chess_move]. *)
Fixpoint send_all (commands : list Command) (w : World) : outcome (bool * World) :=
  match commands with
  | [] => Returns (true, w)
  | cmd :: rest =>
      match send_command (wire cmd) w with
      | Hangs => Hangs
      | Returns (true, w') => send_all rest w'
      | Returns (false, w') => Returns (false, w')
      end
  end.

Definition _plan_promotion_sequence (promotion_square promotion_piece : string)
           (conv : CoordinateConverter.t)
  : result (list Command * CoordinateConverter.t) :=
  promotion_coords <- chess_to_grid promotion_square false ;;
  let commands := [] in
  let commands :=
    commands ++ _plan_edge_movement home_position promotion_coords false in
  let commands := commands ++ [Raise] in
  let '(temp_discard, conv) := get_next_discard_position true conv in
  let commands :=
    commands ++ _plan_edge_movement promotion_coords temp_discard true in
  let commands := commands ++ [Lower] in
  let commands := commands ++ [Home] in
  let commands := commands ++ [Promote promotion_piece] in
  let commands :=
    commands ++ _plan_edge_movement home_position promotion_coords false in
  let commands := commands ++ [Raise] in
  let commands :=
    commands ++ _plan_edge_movement home_position promotion_coords true in
  let commands := commands ++ [Lower] in
  Ok (commands, conv).

(** [if promotion_piece:] - [None] and the empty string are false. *)
Definition truthy (promotion_piece : option string) : option string :=
  match promotion_piece with
  | Some EmptyString => None
  | other => other
  end.

Definition exn_text (e : exn) : string :=
  match e with ValueError msg => msg end.

(** The commands of a move, as [execute_chess_move] builds them before it
    sends any.  [is_castling] is assigned as in the source; nothing reads it
    afterwards. *)
Definition plan_commands (from_square to_square : string) (is_capture : bool)
           (promotion_piece : option string) (is_castling : bool)
           (conv : CoordinateConverter.t)
  : result (list Command * CoordinateConverter.t) :=
  let is_castling :=
    if negb is_castling then _is_castling_move from_square to_square
    else is_castling in
  match truthy promotion_piece with
  | Some piece =>
      commands <- plan_path from_square to_square is_capture true ;;
      more <- _plan_promotion_sequence to_square piece conv ;;
      Ok (commands ++ fst more, snd more)
  | None =>
      commands <- plan_path from_square to_square is_capture true ;;
      Ok (commands, conv)
  end.

Definition execute_chess_move (from_square to_square : string) (is_capture : bool)
           (promotion_piece : option string) (is_castling : bool) (w : World)
  : outcome (bool * World) :=
  match plan_commands from_square to_square is_capture promotion_piece
                      is_castling (converter w) with
  | Raise_ e =>
      Returns (false, print ("Error executing move: " ++ exn_text e)%string w)
  | Ok (commands, conv) =>
      send_all commands
        {| arduino := arduino w; converter := conv; stdout := stdout w |}
  end.

(** ** The board *)

(** The 64 squares, a1 .. h8. *)
Definition all_squares : list string :=
  flat_map (fun f => map (fun r => String f (String r EmptyString))
                         (list_ascii_of_string ranks))
           (list_ascii_of_string files).

(** A square-center grid point: x odd in 1..15, y even in 2..16. *)
Definition is_square_center (p : Pos) : bool :=
  Z.odd (x p) && (1 <=? x p) && (x p <=? 15)
  && Z.even (y p) && (2 <=? y p) && (y p <=? 16).

(** The centers of the 64 squares, computed by the converter. *)
Definition all_centers : list Pos :=
  flat_map (fun s => match chess_to_grid s false with
                     | Ok p => [p]
                     | Raise_ _ => []
                     end) all_squares.

(** ** Successive allocations *)

(** [n] calls of [get_next_discard_position] in a row for one capturer side:
    the positions returned, in order. *)
Fixpoint successive (is_white_capture : bool) (n : nat) (self : CoordinateConverter.t)
  : list Pos :=
  match n with
  | O => []
  | S n' =>
      let '(p, self') := get_next_discard_position is_white_capture self in
      p :: successive is_white_capture n' self'
  end.

(** The lane a side's captures go to, and the list that records them. *)
Definition lane (is_white_capture : bool) : Z :=
  if is_white_capture then black_discard_y else white_discard_y.

Definition pile (is_white_capture : bool) (self : CoordinateConverter.t) : list Z :=
  if is_white_capture then black_captured_pieces self
  else white_captured_pieces self.

(** The x of the k-th allocation (from 0) on an empty lane. *)
Definition slot (k : nat) : Z :=
  if (k <? 8)%nat then 2 * Z.of_nat k + 1 else 1.

(** ** What the commands do to the gripper

    The controller takes [X: dx Y: dy] as a displacement relative to where the
    gripper is, [home] as the return to the origin, and [raise] / [lower] as
    picking up and putting down at the current point. *)

(** The grid points on the straight segment from [p] to [p + (dx, dy)], the
    start left out and the end included. *)
Definition leg_points (p : Pos) (dx dy : Z) : list Pos :=
  let g := Z.gcd dx dy in
  map (fun i => {| x := x p + Z.of_nat i * (dx / g);
                   y := y p + Z.of_nat i * (dy / g) |})
      (seq 1 (Z.to_nat g)).

(** One raise/lower cycle: where the piece was lifted, the grid points it
    passed after the lift (the last is where it came down), and where it
    was lowered. *)
Record Cycle : Type := mkCycle {
  lift : Pos;
  passed : list Pos;
  settle : Pos
}.

Definition extend (cur : option (Pos * list Pos)) (pts : list Pos)
  : option (Pos * list Pos) :=
  match cur with
  | Some (l, ps) => Some (l, ps ++ pts)
  | None => None
  end.

(** The cycles of a choreography run from gripper position [at_]; [cur] is
    the cycle in progress when a piece is up. *)
Fixpoint cycles_from (commands : list Command) (at_ : Pos)
         (cur : option (Pos * list Pos)) : list Cycle :=
  match commands with
  | [] => []
  | Move dx dy :: rest =>
      cycles_from rest {| x := x at_ + dx; y := y at_ + dy |}
                  (extend cur (leg_points at_ dx dy))
  | Home :: rest =>
      cycles_from rest home_position
                  (extend cur (leg_points at_ (- x at_) (- y at_)))
  | Raise :: rest => cycles_from rest at_ (Some (at_, []))
  | Lower :: rest =>
      match cur with
      | Some (l, ps) =>
          {| lift := l; passed := ps; settle := at_ |} :: cycles_from rest at_ None
      | None => cycles_from rest at_ None
      end
  | Promote _ :: rest => cycles_from rest at_ cur
  end.

(** A choreography starts with the gripper at home, nothing carried. *)
Definition cycles (commands : list Command) : list Cycle :=
  cycles_from commands home_position None.

(** The points a carried piece passes strictly between lift and settle. *)
Definition transit (c : Cycle) : list Pos := removelast (passed c).

(** No square center is crossed while a piece is carried. *)
Definition clear_of_centers (commands : list Command) : bool :=
  forallb (fun c => forallb (fun p => negb (is_square_center p)) (transit c))
          (cycles commands).

(** The net displacement of a list of commands that are all moves. *)
Fixpoint net (commands : list Command) : Z * Z :=
  match commands with
  | Move dx dy :: rest => let '(sx, sy) := net rest in (dx + sx, dy + sy)
  | _ :: rest => net rest
  | [] => (0, 0)
  end.

(** A displacement along exactly one axis. *)
Definition one_axis (c : Command) : Prop :=
  match c with
  | Move dx dy => (dx <> 0 /\ dy = 0) \/ (dx = 0 /\ dy <> 0)
  | _ => False
  end.

Definition count_raise (commands : list Command) : nat :=
  List.length (filter (fun c => match c with Raise => true | _ => false end) commands).

(** One plain raise/lower cycle as [plan_path] writes it: approach the
    source uncarried, raise, carry, settle on the destination, lower. *)
Definition plain_cycle (from_coords to_coords : Pos) : list Command :=
  _plan_edge_movement home_position from_coords false
  ++ [Raise]
  ++ _plan_edge_movement from_coords to_coords true
  ++ [Move 1 1; Lower].

(** Calls of [get_next_discard_position] in a row, one per entry of
    [sides] ([true] for a white capture): the positions returned, in order. *)
Fixpoint run_calls (sides : list bool) (self : CoordinateConverter.t) : list Pos :=
  match sides with
  | [] => []
  | side :: rest =>
      let '(p, self') := get_next_discard_position side self in
      p :: run_calls rest self'
  end.

(** The first character of a square in lower case, as [chess_to_grid]
    reads it. *)
Definition lower_file (square : string) : string :=
  match square with
  | String c rest => String (lower c) rest
  | EmptyString => EmptyString
  end.

Definition in_grid (p : Pos) : bool := is_valid_grid_position (x p) (y p).

(** Where the gripper is after each command of a choreography run from
    [at_]. *)
Fixpoint positions_from (commands : list Command) (at_ : Pos) : list Pos :=
  match commands with
  | [] => []
  | Move dx dy :: rest =>
      let at' := {| x := x at_ + dx; y := y at_ + dy |} in
      at' :: positions_from rest at'
  | Home :: rest => home_position :: positions_from rest home_position
  | _ :: rest => at_ :: positions_from rest at_
  end.

Definition positions (commands : list Command) : list Pos :=
  positions_from commands home_position.

(** Whether a piece is up after the commands, starting with [carrying];
    [None] when a [raise] comes with a piece already up, or a [home] with a
    piece up. *)
Fixpoint carrying_after (carrying : bool) (commands : list Command) : option bool :=
  match commands with
  | [] => Some carrying
  | Raise :: rest => if carrying then None else carrying_after true rest
  | Lower :: rest => carrying_after false rest
  | Home :: rest => if carrying then None else carrying_after false rest
  | _ :: rest => carrying_after carrying rest
  end.

Definition is_move (c : Command) : bool :=
  match c with Move _ _ => true | _ => false end.

(** The line [send_command] writes for a command. *)
Definition sent_line (c : Command) : string :=
  (wire c ++ String "010" EmptyString)%string.

(** A line that is no acknowledgement: after [strip] it starts neither with
    [Done] nor with [Error]. *)
Definition is_noise (e : Event) : bool :=
  match e with
  | Line text =>
      negb (startswith (strip text) "Done") && negb (startswith (strip text) "Error")
  | Fault _ => false
  end.

Definition is_done (text : string) : bool := startswith (strip text) "Done".

(** Where the gripper is, and the cycle in progress if a piece is up, after
    the commands; the state [cycles_from] has reached by then. *)
Fixpoint carry_state_from (commands : list Command) (at_ : Pos)
         (cur : option (Pos * list Pos)) : Pos * option (Pos * list Pos) :=
  match commands with
  | [] => (at_, cur)
  | Move dx dy :: rest =>
      carry_state_from rest {| x := x at_ + dx; y := y at_ + dy |}
                       (extend cur (leg_points at_ dx dy))
  | Home :: rest =>
      carry_state_from rest home_position
                       (extend cur (leg_points at_ (- x at_) (- y at_)))
  | Raise :: rest => carry_state_from rest at_ (Some (at_, []))
  | Lower :: rest => carry_state_from rest at_ None
  | Promote _ :: rest => carry_state_from rest at_ cur
  end.

(** ** chess_parser.py *)

Module ChessNotationParser.

Definition files : string := "abcdefgh".
Definition ranks : string := "12345678".

(** [c in s] for a one-character [c]. *)
Definition contains (s : string) (c : ascii) : bool :=
  existsb (Ascii.eqb c) (list_ascii_of_string s).

(** The character classes of the patterns. *)
Definition in_range (lo hi c : ascii) : bool :=
  (Nat.leb (nat_of_ascii lo) (nat_of_ascii c)
   && Nat.leb (nat_of_ascii c) (nat_of_ascii hi))%bool.

Definition is_file (c : ascii) : bool := in_range "a" "h" c.   (* [a-h] *)
Definition is_rank (c : ascii) : bool := in_range "1" "8" c.   (* [1-8] *)
Definition is_piece (c : ascii) : bool := contains "NBRQK" c.  (* [NBRQK] *)
Definition is_promoted (c : ascii) : bool := contains "NBRQ" c. (* [NBRQ] *)

(** [$]: the end of the string, or a final newline. *)
Definition at_end (s : string) : bool :=
  match s with
  | EmptyString => true
  | String c EmptyString => Ascii.eqb c "010"
  | _ => false
  end.

(** [(\+|#)?$] *)
Definition check_suffix (s : string) : bool :=
  match s with
  | String c rest =>
      ((Ascii.eqb c "+" || Ascii.eqb c "#") && at_end rest) || at_end s
  | EmptyString => true
  end.

(** [p?] followed by the rest of a pattern: taken when that leads to a
    match, skipped otherwise. *)
Definition opt (p : ascii -> bool) (k : string -> bool) (s : string) : bool :=
  match s with
  | String c rest => (p c && k rest) || k s
  | EmptyString => k s
  end.

(** [^([a-h][1-8])([a-h][1-8])$], with its two groups. *)
Definition match_coordinate (s : string) : option (string * string) :=
  match s with
  | String f1 (String r1 (String f2 (String r2 rest))) =>
      if is_file f1 && is_rank r1 && is_file f2 && is_rank r2 && at_end rest
      then Some (String f1 (String r1 EmptyString),
                 String f2 (String r2 EmptyString))
      else None
  | _ => None
  end.

(** [^(O-O-O|O-O)(\+|#)?$], with group 1. *)
Definition match_castling (s : string) : option string :=
  if String.prefix "O-O-O" s && check_suffix (substring 5 (String.length s - 5) s)
  then Some "O-O-O"
  else if String.prefix "O-O" s && check_suffix (substring 3 (String.length s - 3) s)
  then Some "O-O"
  else None.

(** [([a-h][1-8])(\+|#)?$] *)
Definition square_then_suffix (s : string) : bool :=
  match s with
  | String f (String r rest) => is_file f && is_rank r && check_suffix rest
  | _ => false
  end.

(** [^([NBRQK]?)([a-h]?[1-8]?)x?([a-h][1-8])(\+|#)?$] *)
Definition match_standard (s : string) : bool :=
  opt is_piece
      (opt is_file (opt is_rank (opt (Ascii.eqb "x") square_then_suffix))) s.

(** [^([a-h])([18])=([NBRQ])(\+|#)?$], with groups 1 and 2. *)
Definition match_promotion (s : string) : option (ascii * ascii) :=
  match s with
  | String f (String r (String eq (String p rest))) =>
      if is_file f && (Ascii.eqb r "1" || Ascii.eqb r "8") && Ascii.eqb eq "="
         && is_promoted p && check_suffix rest
      then Some (f, r)
      else None
  | _ => None
  end.

Definition _parse_castling (castling_type : string) : result (string * string) :=
  if String.eqb castling_type "O-O" then Ok ("e1", "g1")
  else if String.eqb castling_type "O-O-O" then Ok ("e1", "c1")
  else Raise_ (ValueError ("Invalid castling notation: " ++ castling_type)%string).

Definition needs_board_state (move_str : string) : exn :=
  ValueError ("Standard algebraic notation '" ++ move_str
              ++ "' requires board state to resolve. Please use coordinate notation (e.g., 'e2e4')")%string.

Definition unparsable (move_str : string) : exn :=
  ValueError ("Unable to parse chess move: " ++ move_str)%string.

Definition parse_move (move_str : string) : result (string * string) :=
  let move_str := strip move_str in
  match match_coordinate move_str with
  | Some (from_square, to_square) => Ok (from_square, to_square)
  | None =>
      match match_castling move_str with
      | Some castling_type => _parse_castling castling_type
      | None =>
          if match_standard move_str then Raise_ (needs_board_state move_str)
          else
            match match_promotion move_str with
            | Some (file, rank) =>
                let to_square := String file (String rank EmptyString) in
                let from_rank := if Ascii.eqb rank "8" then "7"%char else "2"%char in
                let from_square := String file (String from_rank EmptyString) in
                Ok (from_square, to_square)
            | None => Raise_ (unparsable move_str)
            end
      end
  end.

Definition is_valid_square (square : string) : bool :=
  match square with
  | String file (String rank EmptyString) => contains files file && contains ranks rank
  | _ => false
  end.

(** [int(c)] for a decimal digit. *)
Definition int_of_digit (c : ascii) : Z := Z.of_nat (nat_of_ascii c) - 48.

Definition square_to_coords (square : string) : result (Z * Z) :=
  if negb (is_valid_square square) then
    Raise_ (ValueError ("Invalid square: " ++ square)%string)
  else
    match square with
    | String c0 (String c1 _) =>
        match index c0 files with
        | Some file_index => Ok (file_index, int_of_digit c1 - 1)
        | None => Raise_ (ValueError ("Invalid square: " ++ square)%string)
        end
    | _ => Raise_ (ValueError ("Invalid square: " ++ square)%string)
    end.

End ChessNotationParser.

(** Standard algebraic notation for a move to [to_square]: the bare
    destination (e4), piece moves (Nf3, Nxf3) and pawn captures (exd5), each
    with or without a final + or #. *)
Definition san_to (to_square : string) : list string :=
  flat_map (fun suffix =>
              (to_square ++ suffix)%string
              :: map (fun piece => (piece ++ to_square ++ suffix)%string)
                     ["N"; "B"; "R"; "Q"; "K"]
              ++ map (fun piece => (piece ++ "x" ++ to_square ++ suffix)%string)
                     ["N"; "B"; "R"; "Q"; "K"]
              ++ map (fun file => (file ++ "x" ++ to_square ++ suffix)%string)
                     ["a"; "b"; "c"; "d"; "e"; "f"; "g"; "h"])
           [""; "+"; "#"]%string.

(** Coordinate moves with a capture mark (e4xd5, with or without + or #) or
    with a check or mate mark (e2e4+, e2e4#). *)
Definition marked_coordinate (from_square to_square : string) : list string :=
  [ (from_square ++ to_square ++ "+")%string;
    (from_square ++ to_square ++ "#")%string;
    (from_square ++ "x" ++ to_square)%string;
    (from_square ++ "x" ++ to_square ++ "+")%string;
    (from_square ++ "x" ++ to_square ++ "#")%string ].

(** ** call_robot.py *)

Module CallRobot.

(** One record of the list the game-state service returns, with the keys the
    loop reads. *)
Record MoveRecord : Type := mkMove {
  move_from : string;        (* move['from'] *)
  move_to : string;          (* move['to'] *)
  is_white : bool;           (* move['is_white'] *)
  is_capture : bool;         (* move['is_capture'] *)
  is_promotion : bool;       (* move['is_promotion'] *)
  is_castle : bool;          (* move['is_castle'] *)
  source : string            (* move['source'] *)
}.

(** [str(b)] for a bool. *)
Definition str_bool (b : bool) : string := if b then "True" else "False".

Definition move_header (move : MoveRecord) (processed_count : nat) : string :=
  ((if is_white move then String "010" "⚪ White move #"
    else String "010" "⚫ Black move #")
   ++ str (Z.of_nat processed_count + 1))%string.

Definition move_details (move : MoveRecord) : string :=
  ("  from=" ++ move_from move ++ ", to=" ++ move_to move ++ ", "
   ++ "capture=" ++ str_bool (is_capture move) ++ ", "
   ++ "promotion=" ++ str_bool (is_promotion move) ++ ", "
   ++ "castle=" ++ str_bool (is_castle move))%string.

(** The inner [while processed_count < len(moves)] loop, on the moves from
    index [processed_count] on. *)
Fixpoint process_moves (pending : list MoveRecord) (processed_count : nat)
         (w : World) : outcome (nat * World) :=
  match pending with
  | [] => Returns (processed_count, w)
  | move :: rest =>
      if is_white move || String.eqb (source move) "coach" then
        let w := print (move_header move processed_count) w in
        let w := print (move_details move) w in
        let promotion_piece := if is_promotion move then Some "Q" else None in
        match execute_chess_move (move_from move) (move_to move)
                                 (is_capture move) promotion_piece
                                 (is_castle move) w with
        | Hangs => Hangs
        | Returns (success, w) =>
            let w :=
              if success then print "✅ Move executed successfully!" w
              else print "❌ Failed to execute move!" w in
            process_moves rest (S processed_count) w
        end
      else process_moves rest (S processed_count) w
  end.

(** One round of the polling loop once the list [moves] has been fetched. *)
Definition poll (moves : list MoveRecord) (processed_count : nat) (w : World)
  : outcome (nat * World) :=
  process_moves (skipn processed_count moves) processed_count w.

(** The moves the robot executes: white's, and those issued by the coach. *)
Definition executed (move : MoveRecord) : bool :=
  is_white move || String.eqb (source move) "coach".

End CallRobot.

(** * Properties *)

(** ** The embedding on the examples of the source *)

Example chess_to_grid_e4_channel : chess_to_grid "e4" true = Ok (mkPos 8 7).
Proof. reflexivity. Qed.

Example chess_to_grid_e4_center : chess_to_grid "e4" false = Ok (mkPos 9 8).
Proof. reflexivity. Qed.

Example grid_to_chess_h8 : grid_to_chess 15 16 = Ok "h8".
Proof. reflexivity. Qed.

Example wire_move : wire (Move (-8) 0) = "X: -8 Y: 0".
Proof. reflexivity. Qed.

Example plan_e2e4 :
  plan_path "e2" "e4" false true =
  Ok [Lower; Home; Move 9 4; Raise; Move 1 0; Move 0 3; Move (-2) 0; Move 1 1; Lower].
Proof. reflexivity. Qed.

Example all_squares_64 : List.length all_squares = 64%nat.
Proof. reflexivity. Qed.

Example cycles_e2e4 :
  option_map cycles (match plan_path "e2" "e4" false true with
                     | Ok c => Some c | Raise_ _ => None end)
  = Some [ {| lift := mkPos 9 4;
              passed := [mkPos 10 4; mkPos 10 5; mkPos 10 6; mkPos 10 7;
                         mkPos 9 7; mkPos 8 7; mkPos 9 8];
              settle := mkPos 9 8 |} ].
Proof. reflexivity. Qed.

(** ** Squares and their centers *)

Lemma Pos_eqb_eq (p q : Pos) : Pos_eqb p q = true <-> p = q.
Proof.
  destruct p as [px py], q as [qx qy]; unfold Pos_eqb; simpl.
  rewrite andb_true_iff, !Z.eqb_eq. split.
  - intros [-> ->]; reflexivity.
  - intros H; injection H; auto.
Qed.

Lemma odd_in_1_15 (n : Z) :
  Z.odd n = true -> 1 <= n <= 15 ->
  In n [1; 3; 5; 7; 9; 11; 13; 15].
Proof.
  intros Hodd Hr.
  assert (E : n = 1 \/ n = 2 \/ n = 3 \/ n = 4 \/ n = 5 \/ n = 6 \/ n = 7 \/ n = 8
              \/ n = 9 \/ n = 10 \/ n = 11 \/ n = 12 \/ n = 13 \/ n = 14 \/ n = 15)
    by lia.
  repeat (destruct E as [E | E]; [subst n; first [discriminate Hodd | simpl; tauto] |]).
  subst n; simpl; tauto.
Qed.

Lemma even_in_2_16 (n : Z) :
  Z.even n = true -> 2 <= n <= 16 ->
  In n [2; 4; 6; 8; 10; 12; 14; 16].
Proof.
  intros Hev Hr.
  assert (Hodd : Z.odd (n - 1) = true).
  { rewrite Z.odd_sub, <- Z.negb_even, Hev. reflexivity. }
  pose proof (odd_in_1_15 (n - 1) Hodd ltac:(lia)) as H.
  simpl in H. simpl.
  repeat (destruct H as [H | H]; [left; lia | right]); contradiction.
Qed.

Lemma is_square_center_spec (p : Pos) :
  is_square_center p = true <->
  Z.odd (x p) = true /\ 1 <= x p <= 15 /\ Z.even (y p) = true /\ 2 <= y p <= 16.
Proof.
  unfold is_square_center.
  rewrite !andb_true_iff, !Z.leb_le. tauto.
Qed.

Lemma square_center_in_all_centers (p : Pos) :
  is_square_center p = true -> In p all_centers.
Proof.
  rewrite is_square_center_spec. destruct p as [px py]; simpl.
  intros (Hx & Hxr & Hy & Hyr).
  pose proof (odd_in_1_15 px Hx Hxr) as Ix.
  pose proof (even_in_2_16 py Hy Hyr) as Iy.
  simpl in Ix, Iy.
  repeat (destruct Ix as [Ix | Ix]; [subst px |]); try contradiction;
    repeat (destruct Iy as [Iy | Iy]; [subst py |]); try contradiction;
    vm_compute; tauto.
Qed.

Lemma all_centers_are_centers :
  forallb is_square_center all_centers = true.
Proof. vm_compute. reflexivity. Qed.

(** Every valid square has a center, and it is a square-center point. *)
Lemma chess_to_grid_valid (s : string) :
  In s all_squares ->
  exists p, chess_to_grid s false = Ok p /\ is_square_center p = true.
Proof.
  intros Hin.
  assert (Hall : forallb (fun s => match chess_to_grid s false with
                                   | Ok p => is_square_center p
                                   | Raise_ _ => false
                                   end) all_squares = true)
    by (vm_compute; reflexivity).
  rewrite forallb_forall in Hall. specialize (Hall s Hin).
  destruct (chess_to_grid s false) as [p | e]; [| discriminate].
  exists p; auto.
Qed.

Lemma existsb_all_squares (s : string) :
  existsb (String.eqb s) all_squares = true -> In s all_squares.
Proof.
  intros H. apply existsb_exists in H. destruct H as (s' & Hs' & E).
  apply String.eqb_eq in E. subst s'. exact Hs'.
Qed.

(** ** The coordinate model *)

(** C2. For each of the 64 squares, [grid_to_chess] applied to the center
    that [chess_to_grid] gives returns the square; and for each grid point of
    center parity (x odd in 1..15, y even in 2..16), [chess_to_grid] applied
    to the square that [grid_to_chess] gives returns exactly that point. *)
Theorem center_round_trip :
  (forall s, In s all_squares ->
     exists p, chess_to_grid s false = Ok p
               /\ grid_to_chess (x p) (y p) = Ok s)
  /\
  (forall px py,
     Z.odd px = true -> 1 <= px <= 15 ->
     Z.even py = true -> 2 <= py <= 16 ->
     exists s, grid_to_chess px py = Ok s
               /\ In s all_squares
               /\ chess_to_grid s false = Ok (mkPos px py)).
Proof.
  split.
  - intros s Hin.
    assert (Hall : forallb
              (fun s => match chess_to_grid s false with
                        | Ok p => match grid_to_chess (x p) (y p) with
                                  | Ok s' => String.eqb s' s
                                  | Raise_ _ => false
                                  end
                        | Raise_ _ => false
                        end) all_squares = true)
      by (vm_compute; reflexivity).
    rewrite forallb_forall in Hall. specialize (Hall s Hin).
    destruct (chess_to_grid s false) as [p | e]; [| discriminate].
    exists p. split; [reflexivity |].
    destruct (grid_to_chess (x p) (y p)) as [s' | e]; [| discriminate].
    apply String.eqb_eq in Hall. congruence.
  - intros px py Hx Hxr Hy Hyr.
    assert (Hin : In (mkPos px py) all_centers).
    { apply square_center_in_all_centers, is_square_center_spec; simpl; auto. }
    assert (Hall : forallb
              (fun p => match grid_to_chess (x p) (y p) with
                        | Ok s => existsb (String.eqb s) all_squares
                                  && match chess_to_grid s false with
                                     | Ok q => Pos_eqb q p
                                     | Raise_ _ => false
                                     end
                        | Raise_ _ => false
                        end) all_centers = true)
      by (vm_compute; reflexivity).
    rewrite forallb_forall in Hall. specialize (Hall _ Hin). cbn [x y] in Hall.
    destruct (grid_to_chess px py) as [s | e]; [| discriminate].
    apply andb_true_iff in Hall. destruct Hall as [Hmem Hback].
    exists s. split; [reflexivity |]. split.
    + apply existsb_all_squares, Hmem.
    + destruct (chess_to_grid s false) as [q | e]; [| discriminate].
      apply Pos_eqb_eq in Hback. congruence.
Qed.

Lemma center_round_trip_witness :
  (In "e4" all_squares
   /\ exists p, chess_to_grid "e4" false = Ok p
                /\ grid_to_chess (x p) (y p) = Ok "e4")
  /\ exists s, grid_to_chess 9 8 = Ok s
               /\ In s all_squares
               /\ chess_to_grid s false = Ok (mkPos 9 8).
Proof.
  assert (Hin : In "e4" all_squares) by (vm_compute; tauto).
  split.
  - split; [exact Hin | exact (proj1 center_round_trip "e4" Hin)].
  - apply (proj2 center_round_trip 9 8); [reflexivity | lia | reflexivity | lia].
Defined.

(** C10, as the code has it. [grid_to_chess] raises exactly for the points
    outside 1 <= x <= 16, 2 <= y <= 17.  For every point inside, whatever its
    parity, it returns a valid square: the one with file index
    floor((x-1)/2) and rank index floor((y-2)/2), whose center is
    (2*floor((x-1)/2)+1, 2*floor((y-2)/2)+2). *)
Theorem grid_to_chess_domain (px py : Z) :
  (1 <= px <= 16 /\ 2 <= py <= 17 ->
   exists s, grid_to_chess px py = Ok s
             /\ In s all_squares
             /\ chess_to_grid s false
                = Ok (mkPos (2 * ((px - 1) / 2) + 1) (2 * ((py - 2) / 2) + 2)))
  /\
  (~ (1 <= px <= 16 /\ 2 <= py <= 17) ->
   exists e, grid_to_chess px py = Raise_ e).
Proof.
  split.
  - intros [Hx Hy].
    assert (Ex : In px [1; 2; 3; 4; 5; 6; 7; 8; 9; 10; 11; 12; 13; 14; 15; 16])
      by (simpl; lia).
    assert (Ey : In py [2; 3; 4; 5; 6; 7; 8; 9; 10; 11; 12; 13; 14; 15; 16; 17])
      by (simpl; lia).
    assert (Hall : forallb (fun a => forallb (fun b =>
              match grid_to_chess a b with
              | Ok s => existsb (String.eqb s) all_squares
                        && match chess_to_grid s false with
                           | Ok q => Pos_eqb q (mkPos (2 * ((a - 1) / 2) + 1)
                                                      (2 * ((b - 2) / 2) + 2))
                           | Raise_ _ => false
                           end
              | Raise_ _ => false
              end) [2; 3; 4; 5; 6; 7; 8; 9; 10; 11; 12; 13; 14; 15; 16; 17])
              [1; 2; 3; 4; 5; 6; 7; 8; 9; 10; 11; 12; 13; 14; 15; 16] = true)
      by (vm_compute; reflexivity).
    rewrite forallb_forall in Hall. specialize (Hall px Ex).
    rewrite forallb_forall in Hall. specialize (Hall py Ey).
    destruct (grid_to_chess px py) as [s | e]; [| discriminate].
    apply andb_true_iff in Hall. destruct Hall as [Hmem Hback].
    exists s. split; [reflexivity |]. split.
    + apply existsb_all_squares, Hmem.
    + destruct (chess_to_grid s false) as [q | e]; [| discriminate].
      apply Pos_eqb_eq in Hback. congruence.
  - intros Hout. unfold grid_to_chess, square_size.
    destruct (negb ((0 <=? px) && (px <=? 16)) || negb ((0 <=? py) && (py <=? 18)))
      eqn:Hrange; [eexists; reflexivity |].
    destruct (negb ((0 <=? (px - 1) / 2) && ((px - 1) / 2 <=? 7))
              || negb ((0 <=? (py - 2) / 2) && ((py - 2) / 2 <=? 7)))
      eqn:Hidx; [eexists; reflexivity |].
    exfalso. apply Hout.
    apply orb_false_iff in Hidx. destruct Hidx as [Hf Hr].
    apply negb_false_iff, andb_true_iff in Hf.
    apply negb_false_iff, andb_true_iff in Hr.
    rewrite !Z.leb_le in Hf, Hr.
    destruct Hf as [Hf0 Hf7], Hr as [Hr0 Hr7].
    pose proof (Z.div_mod (px - 1) 2 ltac:(lia)) as Dx.
    pose proof (Z.mod_pos_bound (px - 1) 2 ltac:(lia)) as Mx.
    pose proof (Z.div_mod (py - 2) 2 ltac:(lia)) as Dy.
    pose proof (Z.mod_pos_bound (py - 2) 2 ltac:(lia)) as My.
    lia.
Qed.

Lemma grid_to_chess_domain_witness :
  (exists s, grid_to_chess 2 3 = Ok s
             /\ In s all_squares
             /\ chess_to_grid s false
                = Ok (mkPos (2 * ((2 - 1) / 2) + 1) (2 * ((3 - 2) / 2) + 2)))
  /\ exists e, grid_to_chess 0 5 = Raise_ e.
Proof.
  split.
  - apply (proj1 (grid_to_chess_domain 2 3)). lia.
  - apply (proj2 (grid_to_chess_domain 0 5)). lia.
Defined.

(** C10 as stated fails: (2, 3) has channel parity and is in range, it is
    not a square center, and [grid_to_chess] returns a square for it. *)
Lemma grid_to_chess_accepts_channel_point :
  is_square_center (mkPos 2 3) = false
  /\ is_valid_grid_position 2 3 = true
  /\ grid_to_chess 2 3 = Ok "a1".
Proof. repeat split. Qed.

(** ** The discard lanes *)

Lemma max_of_snoc (h : Z) (tl : list Z) (a : Z) :
  max_of h (tl ++ [a]) = Z.max (max_of h tl) a.
Proof. unfold max_of. rewrite fold_left_app. reflexivity. Qed.

Lemma slot_cases (k : nat) :
  ((k < 8)%nat /\ slot k = 2 * Z.of_nat k + 1) \/ ((8 <= k)%nat /\ slot k = 1).
Proof.
  unfold slot. destruct (Nat.ltb_spec k 8); [left | right]; split; auto.
Qed.

Lemma max_of_slots (k : nat) :
  max_of 1 (map slot (seq 1 k)) = Z.min (2 * Z.of_nat k + 1) 15.
Proof.
  induction k as [| k IH].
  - reflexivity.
  - rewrite seq_S, map_app. cbn [map]. rewrite max_of_snoc, IH.
    destruct (slot_cases (1 + k)) as [[Hlt ->] | [Hge ->]]; lia.
Qed.

Lemma next_x_slots (k : nat) : next_x (map slot (seq 0 k)) = slot k.
Proof.
  destruct k as [| k]; [reflexivity |].
  cbn [seq map next_x]. change (slot 0) with 1.
  rewrite max_of_slots.
  destruct (slot_cases (S k)) as [[Hlt ->] | [Hge ->]];
    destruct (Z.gtb_spec (Z.min (2 * Z.of_nat k + 1) 15 + 2) 15); lia.
Qed.

Lemma get_next_discard_position_pile (side : bool) (self : CoordinateConverter.t) :
  fst (get_next_discard_position side self)
  = mkPos (next_x (pile side self)) (lane side)
  /\ pile side (snd (get_next_discard_position side self))
     = pile side self ++ [next_x (pile side self)].
Proof. destruct side; split; reflexivity. Qed.

Lemma successive_from (side : bool) (n : nat) :
  forall (k : nat) (self : CoordinateConverter.t),
    pile side self = map slot (seq 0 k) ->
    successive side n self = map (fun i => mkPos (slot i) (lane side)) (seq k n).
Proof.
  induction n as [| n IH]; intros k self Hpile; [reflexivity |].
  cbn [successive seq map].
  destruct (get_next_discard_position_pile side self) as [Hp Hs].
  destruct (get_next_discard_position side self) as [p self'].
  cbn [fst snd] in Hp, Hs. rewrite Hpile, next_x_slots in Hp, Hs.
  subst p. f_equal. apply IH.
  rewrite Hs, seq_S, map_app. reflexivity.
Qed.

Lemma successive_nth (side : bool) (n k : nat) :
  (k < n)%nat -> nth k (map x (successive side n init)) 0 = slot k.
Proof.
  intros Hk.
  rewrite (successive_from side n 0 init) by (destruct side; reflexivity).
  rewrite map_map. cbn [x].
  rewrite (nth_indep _ 0 (slot 0)) by (rewrite length_map, length_seq; exact Hk).
  rewrite (map_nth slot), seq_nth by exact Hk. reflexivity.
Qed.

(** C5. From an empty discard pile, successive calls of
    [get_next_discard_position] for one capturer side return x = 1, 3, ..., 15
    (each 2 more than the one before) for the first eight calls, no two of
    them equal, and from the ninth call on the allocator wraps and
    returns x = 1. *)
Theorem discard_slots_increase_then_wrap (side : bool) (n : nat) :
  let xs := map x (successive side n init) in
  (forall k, (k < n)%nat -> (k < 8)%nat -> nth k xs 0 = 2 * Z.of_nat k + 1)
  /\ (forall k, (S k < n)%nat -> (S k < 8)%nat -> nth (S k) xs 0 = nth k xs 0 + 2)
  /\ (forall k, (k < n)%nat -> (8 <= k)%nat -> nth k xs 0 = 1)
  /\ (forall i j, (i < j)%nat -> (j < n)%nat -> (j < 8)%nat ->
                  nth i xs 0 <> nth j xs 0).
Proof.
  cbv zeta. repeat split.
  - intros k Hn H8. rewrite successive_nth by exact Hn.
    destruct (slot_cases k) as [[_ ->] | [Hge _]]; lia.
  - intros k Hn H8. rewrite !successive_nth by lia.
    destruct (slot_cases k) as [[_ ->] | [Hge _]];
      destruct (slot_cases (S k)) as [[_ ->] | [Hge' _]]; lia.
  - intros k Hn H8. rewrite successive_nth by exact Hn.
    destruct (slot_cases k) as [[Hlt _] | [_ ->]]; lia.
  - intros i j Hij Hn H8. rewrite !successive_nth by lia.
    destruct (slot_cases i) as [[_ ->] | [Hge _]];
      destruct (slot_cases j) as [[_ ->] | [Hge' _]]; lia.
Qed.

Lemma discard_slots_increase_then_wrap_witness :
  let xs := map x (successive true 10 init) in
  nth 3 xs 0 = 7 /\ nth 4 xs 0 = nth 3 xs 0 + 2 /\ nth 8 xs 0 = 1
  /\ nth 2 xs 0 <> nth 5 xs 0.
Proof.
  pose proof (discard_slots_increase_then_wrap true 10) as H.
  cbv zeta in *. destruct H as (H1 & H2 & H3 & H4).
  split; [apply (H1 3%nat); lia |].
  split; [apply (H2 3%nat); lia |].
  split; [apply (H3 8%nat); lia |].
  apply (H4 2%nat 5%nat); lia.
Defined.

(** ** Carrying legs *)

Lemma net_app (a b : list Command) :
  net (a ++ b) = (fst (net a) + fst (net b), snd (net a) + snd (net b)).
Proof.
  induction a as [| c a IH]; cbn [app net].
  - destruct (net b); reflexivity.
  - destruct c; try exact IH.
    rewrite IH. destruct (net a), (net b); cbn [fst snd]. f_equal; lia.
Qed.

(** Splits on each "leg is not zero" test of the planner. *)
Ltac split_legs :=
  repeat match goal with
         | |- context [negb (?d =? 0)] =>
             destruct (Z.eqb_spec d 0); cbn [negb app]
         end.

Ltac legs_done :=
  cbn [List.length net fst snd];
  repeat split;
  first [ lia
        | repeat constructor; cbn [one_axis]; lia
        | f_equal; lia ].

Lemma parity_shift (n : Z) :
  (n mod 2 = 0 -> (n + 1) mod 2 = 1 /\ (n - 1) mod 2 = 1)
  /\ (n mod 2 = 1 -> (n + 1) mod 2 = 0 /\ (n - 1) mod 2 = 0).
Proof. split; intros H; split; Z.div_mod_to_equations; lia. Qed.

Section Legs.

Variables fx fy tx ty : Z.
Hypothesis from_x_odd : fx mod 2 = 1.
Hypothesis from_y_even : fy mod 2 = 0.
Hypothesis to_x_odd : tx mod 2 = 1.
Hypothesis to_y_even : ty mod 2 = 0.

Let from_pos := mkPos fx fy.
Let to_pos := mkPos tx ty.

(** Both routings end on the channel corner below and left of the
    destination center, whatever [dx] and [dy] they are called with. *)
Lemma horizontal_legs (dx dy : Z) :
  let legs := _plan_horizontal_edge_movement from_pos to_pos dx dy in
  (List.length legs <= 3)%nat
  /\ Forall one_axis legs
  /\ net legs = (tx - 1 - fx, ty - 1 - fy).
Proof.
  destruct (parity_shift fy) as [[Hup Hdown] _]; [exact from_y_even |].
  unfold _plan_horizontal_edge_movement, from_pos, to_pos. cbn [x y].
  rewrite from_y_even, to_x_odd, to_y_even. cbn [Z.eqb andb Pos.eqb].
  destruct (dy >=? 0).
  - rewrite Hup. cbn [Z.eqb app]. split_legs; legs_done.
  - rewrite Hdown. cbn [Z.eqb app]. split_legs; legs_done.
Qed.

Lemma vertical_legs (dx dy : Z) :
  let legs := _plan_vertical_edge_movement from_pos to_pos dx dy in
  (List.length legs <= 3)%nat
  /\ Forall one_axis legs
  /\ net legs = (tx - 1 - fx, ty - 1 - fy).
Proof.
  destruct (parity_shift fx) as [_ [Hup Hdown]]; [exact from_x_odd |].
  unfold _plan_vertical_edge_movement, from_pos, to_pos. cbn [x y].
  rewrite from_x_odd, to_x_odd, to_y_even. cbn [Z.eqb andb Pos.eqb].
  destruct (dx >=? 0).
  - rewrite Hup. cbn [Z.eqb app]. split_legs; legs_done.
  - rewrite Hdown. cbn [Z.eqb app]. split_legs; legs_done.
Qed.

Lemma carrying_legs :
  let legs := _plan_edge_movement from_pos to_pos true in
  (List.length legs <= 3)%nat
  /\ Forall one_axis legs
  /\ net (legs ++ [Move 1 1]) = (tx - fx, ty - fy).
Proof.
  cbv zeta. unfold _plan_edge_movement. cbn [negb].
  destruct (Z.abs (x to_pos - x from_pos) >=? Z.abs (y to_pos - y from_pos));
    [ destruct (horizontal_legs (x to_pos - x from_pos) (y to_pos - y from_pos))
        as (Hlen & Haxis & Hnet)
    | destruct (vertical_legs (x to_pos - x from_pos) (y to_pos - y from_pos))
        as (Hlen & Haxis & Hnet) ];
    (split; [exact Hlen | split; [exact Haxis |]]);
    rewrite net_app, Hnet; cbn [net fst snd]; f_equal; lia.
Qed.

End Legs.

Lemma center_parity (p : Pos) :
  is_square_center p = true -> x p mod 2 = 1 /\ y p mod 2 = 0.
Proof.
  rewrite is_square_center_spec. intros (Hx & _ & Hy & _).
  rewrite Zmod_odd, Hx, Zmod_even, Hy. auto.
Qed.

Lemma is_castling_move_pairs (a b : string) :
  _is_castling_move a b = true -> In (a, b) castling_pairs.
Proof.
  unfold _is_castling_move. rewrite existsb_exists.
  intros ([a' b'] & Hin & E). cbn [fst snd] in E.
  apply andb_true_iff in E. destruct E as [Ea Eb].
  apply String.eqb_eq in Ea, Eb. subst. exact Hin.
Qed.

(** The carrying cycle of every planned move picks up on the source center
    and puts down on the destination center. *)
Lemma plan_path_delivers :
  forallb (fun a => forallb (fun b => forallb (fun is_capture =>
    forallb (fun is_white_move =>
      match chess_to_grid a false, chess_to_grid b false,
            plan_path a b is_capture is_white_move with
      | Ok pa, Ok pb, Ok commands =>
          existsb (fun c => Pos_eqb (lift c) pa && Pos_eqb (settle c) pb)
                  (cycles commands)
      | _, _, _ => false
      end) [true; false]) [true; false]) all_squares) all_squares = true.
Proof. vm_compute. reflexivity. Qed.

(** C3. For every pair of valid squares, the carrying plan between their
    centers has at most three commands, each a displacement along exactly one
    axis (no zero leg is kept), and these legs followed by the corrective
    displacement (1, 1) add up to destination center minus source center.
    In the planned path the legs stand between the raise and that corrective
    displacement, which the lower follows, so the carried piece is lifted on
    the source center and lowered on the destination center. *)
Theorem carrying_plan_reaches_destination (a b : string) :
  In a all_squares -> In b all_squares ->
  exists pa pb,
    chess_to_grid a false = Ok pa /\ chess_to_grid b false = Ok pb /\
    let legs := _plan_edge_movement pa pb true in
    (List.length legs <= 3)%nat
    /\ Forall one_axis legs
    /\ net (legs ++ [Move 1 1]) = (x pb - x pa, y pb - y pa)
    /\ forall is_capture is_white_move,
         exists before after commands,
           plan_path a b is_capture is_white_move = Ok commands
           /\ commands = before ++ [Raise] ++ legs ++ [Move 1 1; Lower] ++ after
           /\ exists c, In c (cycles commands) /\ lift c = pa /\ settle c = pb.
Proof.
  intros Ha Hb.
  destruct (chess_to_grid_valid a Ha) as (pa & Epa & Ca).
  destruct (chess_to_grid_valid b Hb) as (pb & Epb & Cb).
  exists pa, pb. split; [exact Epa | split; [exact Epb |]].
  destruct (center_parity pa Ca) as [Hax Hay].
  destruct (center_parity pb Cb) as [Hbx Hby].
  pose proof (carrying_legs (x pa) (y pa) (x pb) (y pb) Hax Hay Hbx Hby) as L.
  destruct pa as [ax ay], pb as [bx by_]. cbn [x y] in L. cbv zeta in L |- *.
  destruct L as (Hlen & Haxis & Hnet).
  split; [exact Hlen | split; [exact Haxis | split; [exact Hnet |]]].
  intros is_capture is_white_move.
  assert (Hcycle : exists commands,
             plan_path a b is_capture is_white_move = Ok commands
             /\ exists c, In c (cycles commands)
                          /\ lift c = mkPos ax ay /\ settle c = mkPos bx by_).
  { pose proof plan_path_delivers as D.
    rewrite forallb_forall in D. specialize (D a Ha).
    rewrite forallb_forall in D. specialize (D b Hb).
    rewrite forallb_forall in D.
    specialize (D is_capture ltac:(destruct is_capture; simpl; tauto)).
    rewrite forallb_forall in D.
    specialize (D is_white_move ltac:(destruct is_white_move; simpl; tauto)).
    rewrite Epa, Epb in D.
    destruct (plan_path a b is_capture is_white_move) as [commands | e];
      [| discriminate].
    exists commands. split; [reflexivity |].
    apply existsb_exists in D. destruct D as (c & Hc & E).
    apply andb_true_iff in E. destruct E as [El Es].
    apply Pos_eqb_eq in El, Es. exists c. auto. }
  destruct Hcycle as (commands & Eplan & Hc).
  destruct (_is_castling_move a b) eqn:Hcastle.
  - apply is_castling_move_pairs in Hcastle.
    assert (Hshape : exists before after,
               commands = before ++ [Raise]
                          ++ _plan_edge_movement (mkPos ax ay) (mkPos bx by_) true
                          ++ [Move 1 1; Lower] ++ after).
    { cbn [castling_pairs In] in Hcastle.
      repeat (destruct Hcastle as [Hcastle | Hcastle];
              [injection Hcastle as <- <-;
               injection Epa as <- <-; injection Epb as <- <-;
               destruct is_white_move;
               vm_compute in Eplan; injection Eplan as <-;
               match goal with
               | |- exists before after, ?h1 :: ?h2 :: ?h3 :: Raise :: _ = _ =>
                   exists [h1; h2; h3]; eexists; vm_compute; reflexivity
               end |]).
      contradiction. }
    destruct Hshape as (before & after & Hshape).
    exists before, after, commands. auto.
  - pose proof Eplan as Eshape.
    unfold plan_path in Eshape. rewrite Hcastle, Epa, Epb in Eshape.
    cbn [bind] in Eshape. injection Eshape as Eshape.
    eexists
      ((if is_capture
         then [Lower; Home]
              ++ _plan_edge_movement home_position (mkPos bx by_) false
              ++ [Raise]
              ++ _plan_discard_movement (mkPos bx by_) (mkPos 1 0)
              ++ [Move 0 (-1)] ++ [Lower] ++ [Home]
         else [Lower; Home])
       ++ _plan_edge_movement home_position (mkPos ax ay) false),
      [], commands.
    split; [exact Eplan |]. split; [| exact Hc].
    rewrite <- Eshape. destruct is_capture;
      repeat (rewrite <- app_assoc || cbn [app]); reflexivity.
Qed.

Lemma carrying_plan_reaches_destination_witness :
  In "e2" all_squares /\ In "e4" all_squares /\
  exists pa pb,
    chess_to_grid "e2" false = Ok pa /\ chess_to_grid "e4" false = Ok pb /\
    let legs := _plan_edge_movement pa pb true in
    (List.length legs <= 3)%nat
    /\ Forall one_axis legs
    /\ net (legs ++ [Move 1 1]) = (x pb - x pa, y pb - y pa)
    /\ forall is_capture is_white_move,
         exists before after commands,
           plan_path "e2" "e4" is_capture is_white_move = Ok commands
           /\ commands = before ++ [Raise] ++ legs ++ [Move 1 1; Lower] ++ after
           /\ exists c, In c (cycles commands) /\ lift c = pa /\ settle c = pb.
Proof.
  assert (H2 : In "e2" all_squares) by (vm_compute; tauto).
  assert (H4 : In "e4" all_squares) by (vm_compute; tauto).
  split; [exact H2 | split; [exact H4 |]].
  exact (carrying_plan_reaches_destination "e2" "e4" H2 H4).
Defined.

(** ** Carried pieces and square centers *)

(** Without a capture - plain moves and the four castling moves - no carried
    piece crosses a square center between its lift and its settle. *)
Lemma plain_paths_clear_of_centers (a b : string) (is_white_move : bool) :
  In a all_squares -> In b all_squares ->
  exists commands,
    plan_path a b false is_white_move = Ok commands
    /\ clear_of_centers commands = true.
Proof.
  intros Ha Hb.
  assert (Hall : forallb (fun a => forallb (fun b => forallb (fun w =>
            match plan_path a b false w with
            | Ok commands => clear_of_centers commands
            | Raise_ _ => false
            end) [true; false]) all_squares) all_squares = true)
    by (vm_compute; reflexivity).
  rewrite forallb_forall in Hall. specialize (Hall a Ha).
  rewrite forallb_forall in Hall. specialize (Hall b Hb).
  rewrite forallb_forall in Hall.
  specialize (Hall is_white_move ltac:(destruct is_white_move; simpl; tauto)).
  destruct (plan_path a b false is_white_move) as [commands | e]; [| discriminate].
  exists commands. auto.
Qed.

(** With a capture, the captured piece crosses a square center on its way to
    the discard point exactly when the destination is off the first rank:
    the last leg of [_plan_discard_movement] runs down the column x = 1,
    through the centers of the a-file. *)
Lemma capture_paths_and_centers (a b : string) (is_white_move : bool) :
  In a all_squares -> In b all_squares -> _is_castling_move a b = false ->
  exists commands pb,
    plan_path a b true is_white_move = Ok commands
    /\ chess_to_grid b false = Ok pb
    /\ clear_of_centers commands = (y pb =? 2).
Proof.
  intros Ha Hb Hcastle.
  assert (Hall : forallb (fun a => forallb (fun b => forallb (fun w =>
            _is_castling_move a b ||
            match plan_path a b true w, chess_to_grid b false with
            | Ok commands, Ok pb =>
                Bool.eqb (clear_of_centers commands) (y pb =? 2)
            | _, _ => false
            end) [true; false]) all_squares) all_squares = true)
    by (vm_compute; reflexivity).
  rewrite forallb_forall in Hall. specialize (Hall a Ha).
  rewrite forallb_forall in Hall. specialize (Hall b Hb).
  rewrite forallb_forall in Hall.
  specialize (Hall is_white_move ltac:(destruct is_white_move; simpl; tauto)).
  rewrite Hcastle in Hall. cbn [orb] in Hall.
  destruct (plan_path a b true is_white_move) as [commands | e]; [| discriminate].
  destruct (chess_to_grid b false) as [pb | e]; [| discriminate].
  exists commands, pb. apply Bool.eqb_prop in Hall. auto.
Qed.

(** C1 at the capture e4 x d5. The captured piece is lifted on d5's center
    (7, 10) and carried to (1, 0); on the way it passes (1, 8), (1, 6),
    (1, 4) and (1, 2), the centers of a4, a3, a2 and a1. *)
Theorem capture_drags_piece_over_centers :
  let commands :=
    [Lower; Home; Move 7 10; Raise;
     Move 0 (-1); Move (-6) 0; Move 0 (-8); Move 0 (-1); Lower; Home;
     Move 9 8; Raise; Move 0 1; Move (-3) 0; Move 1 1; Lower] in
  plan_path "e4" "d5" true true = Ok commands
  /\ (exists c, hd_error (cycles commands) = Some c
                /\ lift c = mkPos 7 10 /\ settle c = mkPos 1 0
                /\ filter is_square_center (transit c)
                   = [mkPos 1 8; mkPos 1 6; mkPos 1 4; mkPos 1 2])
  /\ map (fun s => chess_to_grid s false) ["a4"; "a3"; "a2"; "a1"]
     = map Ok [mkPos 1 8; mkPos 1 6; mkPos 1 4; mkPos 1 2]
  /\ clear_of_centers commands = false.
Proof.
  cbv zeta. split; [reflexivity |]. split; [| split; reflexivity].
  eexists. split; [reflexivity |]. repeat split.
Qed.

(** ** Captures and the discard allocator *)

(** Planning without a promotion never touches the converter's discard
    lists: [plan_path] does not call [get_next_discard_position]. *)
Lemma plan_without_promotion_keeps_converter
      (a b : string) (is_capture is_castling : bool)
      (conv conv' : CoordinateConverter.t) (commands : list Command) :
  plan_commands a b is_capture None is_castling conv = Ok (commands, conv') ->
  conv' = conv /\ plan_path a b is_capture true = Ok commands.
Proof.
  unfold plan_commands. cbn [truthy].
  destruct (plan_path a b is_capture true) as [cmds | e]; cbn [bind];
    [| discriminate].
  intros H. injection H as <- <-. auto.
Qed.

(** In every capture that is not a castling pair the captured piece goes
    first, from the destination center to the fixed point (1, 0); the
    capturing piece's cycle follows. *)
Lemma capture_cycles (a b : string) (is_white_move : bool) :
  In a all_squares -> In b all_squares -> _is_castling_move a b = false ->
  exists commands pa pb,
    plan_path a b true is_white_move = Ok commands
    /\ chess_to_grid a false = Ok pa /\ chess_to_grid b false = Ok pb
    /\ map (fun c => (lift c, settle c)) (cycles commands)
       = [(pb, mkPos 1 0); (pa, pb)].
Proof.
  intros Ha Hb Hcastle.
  assert (Hall : forallb (fun a => forallb (fun b => forallb (fun w =>
            _is_castling_move a b ||
            match plan_path a b true w, chess_to_grid a false,
                  chess_to_grid b false with
            | Ok commands, Ok pa, Ok pb =>
                match map (fun c => (lift c, settle c)) (cycles commands) with
                | [(l1, s1); (l2, s2)] =>
                    Pos_eqb l1 pb && Pos_eqb s1 (mkPos 1 0)
                    && Pos_eqb l2 pa && Pos_eqb s2 pb
                | _ => false
                end
            | _, _, _ => false
            end) [true; false]) all_squares) all_squares = true)
    by (vm_compute; reflexivity).
  rewrite forallb_forall in Hall. specialize (Hall a Ha).
  rewrite forallb_forall in Hall. specialize (Hall b Hb).
  rewrite forallb_forall in Hall.
  specialize (Hall is_white_move ltac:(destruct is_white_move; simpl; tauto)).
  rewrite Hcastle in Hall. cbn [orb] in Hall.
  destruct (plan_path a b true is_white_move) as [commands | e]; [| discriminate].
  destruct (chess_to_grid a false) as [pa | e]; [| discriminate].
  destruct (chess_to_grid b false) as [pb | e]; [| discriminate].
  exists commands, pa, pb. repeat split.
  destruct (map (fun c => (lift c, settle c)) (cycles commands))
    as [| [l1 s1] [| [l2 s2] [| ? ?]]]; try discriminate.
  rewrite !andb_true_iff, !Pos_eqb_eq in Hall.
  destruct Hall as (((-> & ->) & ->) & ->). reflexivity.
Qed.

(** C4 at two captures in a row, e4 x d5 and then g4 x f5, planned as
    [execute_chess_move] plans them from a fresh converter. Both captured
    pieces are lowered on (1, 0) and the converter's discard lists stay
    empty, while two calls of the allocator for a white capture give (1, 18)
    and then (3, 18). *)
Theorem captures_share_one_discard_point :
  (exists first second,
     plan_commands "e4" "d5" true None false init = Ok (first, init)
     /\ plan_commands "g4" "f5" true None false init = Ok (second, init)
     /\ map (fun c => (lift c, settle c)) (cycles first)
        = [(mkPos 7 10, mkPos 1 0); (mkPos 9 8, mkPos 7 10)]
     /\ map (fun c => (lift c, settle c)) (cycles second)
        = [(mkPos 11 10, mkPos 1 0); (mkPos 13 8, mkPos 11 10)])
  /\ successive true 2 init = [mkPos 1 18; mkPos 3 18].
Proof.
  split; [| reflexivity].
  do 2 eexists. repeat split.
Qed.

(** ** Castling *)

(** C6. Planning e1 -> g1 for white gives, whatever the capture flag, the
    castling path: after the opening [lower], [home], one raise/lower cycle
    that carries the king from e1 to g1, a [home], and one raise/lower cycle
    that carries the rook from h1 to f1. There are exactly two raises, and
    neither piece is put down anywhere but on its own destination square, so
    no piece goes to a discard lane. *)
Theorem castling_e1g1_two_cycles (is_capture : bool) :
  let e1 := mkPos 9 2 in
  let g1 := mkPos 13 2 in
  let h1 := mkPos 15 2 in
  let f1 := mkPos 11 2 in
  let commands :=
    [Lower; Home] ++ plain_cycle e1 g1 ++ [Home] ++ plain_cycle h1 f1 in
  map (fun s => chess_to_grid s false) ["e1"; "g1"; "h1"; "f1"]
  = map Ok [e1; g1; h1; f1]
  /\ plan_path "e1" "g1" is_capture true = Ok commands
  /\ commands
     = [Lower; Home;
        Move 9 2; Raise; Move 0 1; Move 3 0; Move 0 (-2); Move 1 1; Lower;
        Home;
        Move 15 2; Raise; Move 0 1; Move (-5) 0; Move 0 (-2); Move 1 1; Lower]
  /\ map (fun c => (lift c, settle c)) (cycles commands) = [(e1, g1); (h1, f1)]
  /\ count_raise commands = 2%nat
  /\ clear_of_centers commands = true.
Proof.
  cbv zeta. destruct is_capture; repeat split.
Qed.

(** The four fixed king pairs are planned as castling, whatever the flags. *)
Lemma king_pairs_plan_castling (a b : string) (is_capture is_white_move : bool) :
  In (a, b) castling_pairs ->
  plan_path a b is_capture is_white_move = _plan_castling_path a b is_white_move.
Proof.
  intros Hin. cbn [castling_pairs In] in Hin.
  repeat (destruct Hin as [Hin | Hin]; [injection Hin as <- <-; reflexivity |]).
  contradiction.
Qed.

(** C7 at e2 -> e4 with the castling flag set. [execute_chess_move] assigns
    [is_castling] and never reads it: for all arguments the commands are the
    same with the flag set or not, and for e2 -> e4 they are the plain move
    with its single raise/lower cycle, not a castling path. *)
Theorem castling_flag_is_not_read :
  (forall a b is_capture promotion_piece conv,
     plan_commands a b is_capture promotion_piece true conv
     = plan_commands a b is_capture promotion_piece false conv)
  /\ plan_commands "e2" "e4" false None true init
     = Ok ([Lower; Home; Move 9 4; Raise;
            Move 1 0; Move 0 3; Move (-2) 0; Move 1 1; Lower], init)
  /\ (exists castling,
        _plan_castling_path "e2" "e4" true = Ok castling
        /\ count_raise castling = 2%nat
        /\ plan_commands "e2" "e4" false None true init <> Ok (castling, init)).
Proof.
  split; [reflexivity |]. split; [reflexivity |].
  eexists. split; [reflexivity |]. split; [reflexivity |].
  discriminate.
Qed.

(** ** Dispatch *)

Lemma plan_path_starts_with_lower
      (a b : string) (is_capture is_white_move : bool) (commands : list Command) :
  plan_path a b is_capture is_white_move = Ok commands ->
  exists more, commands = Lower :: more.
Proof.
  unfold plan_path, _plan_castling_path.
  destruct (_is_castling_move a b).
  - destruct (String.eqb b "g1" || String.eqb b "g8");
      repeat match goal with
             | |- context [bind (chess_to_grid ?s false) _] =>
                 destruct (chess_to_grid s false); cbn [bind]
             end;
      try discriminate; intros H; injection H as <-; eexists; reflexivity.
  - destruct (chess_to_grid a false); cbn [bind]; [| discriminate].
    destruct (chess_to_grid b false); cbn [bind]; [| discriminate].
    destruct is_capture; intros H; injection H as <-; eexists; reflexivity.
Qed.

Lemma plan_commands_starts_with_lower
      (a b : string) (is_capture : bool) (promotion_piece : option string)
      (is_castling : bool) (conv conv' : CoordinateConverter.t)
      (commands : list Command) :
  plan_commands a b is_capture promotion_piece is_castling conv
  = Ok (commands, conv') ->
  exists more, commands = Lower :: more.
Proof.
  unfold plan_commands.
  destruct (plan_path a b is_capture true) as [cmds | e] eqn:Eplan;
    [| destruct (truthy promotion_piece); discriminate].
  destruct (plan_path_starts_with_lower _ _ _ _ _ Eplan) as [more ->].
  destruct (truthy promotion_piece) as [piece |]; cbn [bind].
  - destruct (_plan_promotion_sequence b piece conv) as [[seq_ conv''] | e];
      cbn [bind fst snd]; [| discriminate].
    intros H. injection H as <- <-. eexists; reflexivity.
  - intros H. injection H as <- <-. eexists; reflexivity.
Qed.

(** A line that begins with [Error] still does after [strip], and does not
    begin with [Done]. *)
Lemma strip_keeps_error (text : string) :
  startswith text "Error" = true ->
  startswith (strip text) "Done" = false
  /\ startswith (strip text) "Error" = true.
Proof.
  unfold startswith. intros H.
  do 5 (destruct text as [| ? text]; cbn [String.prefix] in H;
        [discriminate |];
        match type of H with
        | (if ascii_dec ?a ?c then _ else _) = true =>
            destruct (ascii_dec a c) as [<- | _]; [| discriminate]
        end).
  unfold strip. cbn [lstrip]. change (is_space "E") with false. cbv iota.
  cbn [rstrip].
  destruct (rstrip text); cbn; auto.
Qed.

(** C8. On a live connection that accepts writes, when the first line the
    controller sends back begins with [Error], [execute_chess_move] returns
    [False]; it has written the first command of the choreography and
    nothing else, and has read that one line. *)
Theorem error_on_first_action_aborts
        (a b : string) (is_capture : bool) (promotion_piece : option string)
        (is_castling : bool) (w : World) (conn : Serial)
        (text : string) (rest : list Event)
        (commands : list Command) (conv' : CoordinateConverter.t) :
  arduino w = Some conn ->
  write_error conn = None ->
  rx conn = Line text :: rest ->
  startswith text "Error" = true ->
  plan_commands a b is_capture promotion_piece is_castling (converter w)
  = Ok (commands, conv') ->
  exists first more w',
    commands = first :: more
    /\ execute_chess_move a b is_capture promotion_piece is_castling w
       = Returns (false, w')
    /\ arduino w'
       = Some {| write_error := None;
                 rx := rest;
                 tx := tx conn ++ [(wire first ++ String "010" EmptyString)%string] |}.
Proof.
  intros Hconn Hwrite Hrx Herr Hplan.
  destruct (plan_commands_starts_with_lower _ _ _ _ _ _ _ _ Hplan) as [more ->].
  destruct (strip_keeps_error text Herr) as [Hdone Herror].
  exists Lower, more. eexists. split; [reflexivity |].
  unfold execute_chess_move. rewrite Hplan.
  cbn [send_all]. unfold send_command. cbn [arduino].
  rewrite Hconn, Hwrite, Hrx. cbn [await_ack].
  rewrite Hdone, Herror. split; reflexivity.
Qed.

Lemma error_on_first_action_aborts_witness :
  let conn := {| write_error := None;
                 rx := [Line "Error: limit switch"; Line "Done"];
                 tx := [] |} in
  let w := {| arduino := Some conn; converter := init; stdout := [] |} in
  exists first more w',
    [Lower; Home; Move 9 4; Raise; Move 1 0; Move 0 3; Move (-2) 0; Move 1 1; Lower]
    = first :: more
    /\ execute_chess_move "e2" "e4" false None false w = Returns (false, w')
    /\ arduino w'
       = Some {| write_error := None;
                 rx := [Line "Done"];
                 tx := tx conn ++ [(wire first ++ String "010" EmptyString)%string] |}.
Proof.
  cbv zeta.
  apply (error_on_first_action_aborts "e2" "e4" false None false
           {| arduino := Some {| write_error := None;
                                 rx := [Line "Error: limit switch"; Line "Done"];
                                 tx := [] |};
              converter := init; stdout := [] |}
           {| write_error := None;
              rx := [Line "Error: limit switch"; Line "Done"];
              tx := [] |}
           "Error: limit switch" [Line "Done"]
           [Lower; Home; Move 9 4; Raise; Move 1 0; Move 0 3; Move (-2) 0;
            Move 1 1; Lower]
           init);
    reflexivity.
Defined.

(** In simulation mode every command is printed and counted as sent. *)
Lemma send_all_simulation (commands : list Command) :
  forall w, arduino w = None ->
    send_all commands w
    = Returns (true,
               {| arduino := None; converter := converter w;
                  stdout := stdout w
                            ++ map (fun c => ("SIMULATION: " ++ wire c)%string)
                                   commands |}).
Proof.
  induction commands as [| c commands IH]; intros w Hsim.
  - cbn [send_all map]. rewrite app_nil_r. destruct w; cbn in *; subst; reflexivity.
  - cbn [send_all]. unfold send_command. rewrite Hsim.
    rewrite IH by exact Hsim. cbn [print converter stdout map].
    rewrite <- app_assoc. reflexivity.
Qed.

(** Planning succeeds for valid squares. *)
Lemma plan_path_valid (a b : string) (is_capture is_white_move : bool) :
  In a all_squares -> In b all_squares ->
  exists commands, plan_path a b is_capture is_white_move = Ok commands.
Proof.
  intros Ha Hb.
  pose proof plan_path_delivers as D.
  rewrite forallb_forall in D. specialize (D a Ha).
  rewrite forallb_forall in D. specialize (D b Hb).
  rewrite forallb_forall in D.
  specialize (D is_capture ltac:(destruct is_capture; simpl; tauto)).
  rewrite forallb_forall in D.
  specialize (D is_white_move ltac:(destruct is_white_move; simpl; tauto)).
  destruct (chess_to_grid a false); [| discriminate].
  destruct (chess_to_grid b false); [| discriminate].
  destruct (plan_path a b is_capture is_white_move) as [commands | e];
    [| discriminate].
  exists commands. reflexivity.
Qed.

Lemma plan_commands_valid
      (a b : string) (is_capture : bool) (promotion_piece : option string)
      (is_castling : bool) (conv : CoordinateConverter.t) :
  In a all_squares -> In b all_squares ->
  exists commands conv',
    plan_commands a b is_capture promotion_piece is_castling conv
    = Ok (commands, conv').
Proof.
  intros Ha Hb.
  destruct (plan_path_valid a b is_capture true Ha Hb) as [commands Hplan].
  destruct (chess_to_grid_valid b Hb) as (pb & Epb & _).
  unfold plan_commands. rewrite Hplan.
  destruct (truthy promotion_piece) as [piece |]; cbn [bind].
  - unfold _plan_promotion_sequence. rewrite Epb. cbn [bind].
    destruct (get_next_discard_position true conv) as [temp_discard conv'].
    cbn [bind fst snd]. do 2 eexists. reflexivity.
  - do 2 eexists. reflexivity.
Qed.

(** C9. With no serial connection ([arduino] is [None]), executing a move
    between valid squares returns [True], whatever the flags: the
    choreography is planned, each of its commands is printed as a
    [SIMULATION:] line and counted as a success, and there is still no
    connection afterwards, so nothing was written to hardware. *)
Theorem simulation_mode_always_succeeds
        (a b : string) (is_capture : bool) (promotion_piece : option string)
        (is_castling : bool) (w : World) :
  In a all_squares -> In b all_squares ->
  arduino w = None ->
  exists commands conv',
    plan_commands a b is_capture promotion_piece is_castling (converter w)
    = Ok (commands, conv')
    /\ execute_chess_move a b is_capture promotion_piece is_castling w
       = Returns (true,
                  {| arduino := None;
                     converter := conv';
                     stdout := stdout w
                               ++ map (fun c => ("SIMULATION: " ++ wire c)%string)
                                      commands |}).
Proof.
  intros Ha Hb Hsim.
  destruct (plan_commands_valid a b is_capture promotion_piece is_castling
              (converter w) Ha Hb) as (commands & conv' & Hplan).
  exists commands, conv'. split; [exact Hplan |].
  unfold execute_chess_move. rewrite Hplan.
  rewrite send_all_simulation by exact Hsim. reflexivity.
Qed.

Lemma simulation_mode_always_succeeds_witness :
  let w := {| arduino := None; converter := init; stdout := [] |} in
  In "e7" all_squares /\ In "e8" all_squares /\
  exists commands conv',
    plan_commands "e7" "e8" false (Some "Q") false (converter w)
    = Ok (commands, conv')
    /\ execute_chess_move "e7" "e8" false (Some "Q") false w
       = Returns (true,
                  {| arduino := None;
                     converter := conv';
                     stdout := stdout w
                               ++ map (fun c => ("SIMULATION: " ++ wire c)%string)
                                      commands |}).
Proof.
  cbv zeta.
  assert (H7 : In "e7" all_squares) by (vm_compute; tauto).
  assert (H8 : In "e8" all_squares) by (vm_compute; tauto).
  split; [exact H7 | split; [exact H8 |]].
  apply (simulation_mode_always_succeeds "e7" "e8" false (Some "Q") false
           {| arduino := None; converter := init; stdout := [] |} H7 H8).
  reflexivity.
Defined.

(** * Further properties of the converter *)

Lemma index_In (c : ascii) (s : string) :
  (exists i, index c s = Some i) <-> In c (list_ascii_of_string s).
Proof.
  induction s as [| d s IH]; cbn [index list_ascii_of_string In].
  - split; [intros [i H]; discriminate | contradiction].
  - destruct (Ascii.eqb_spec c d) as [-> | Hne].
    + split; [auto | intros _; eexists; reflexivity].
    + rewrite <- IH. split.
      * intros [i H]. destruct (index c s) as [j |]; [eauto | discriminate].
      * intros [E | [j H]]; [congruence | rewrite H; eauto].
Qed.

Lemma index_bound (c : ascii) (s : string) (i : Z) :
  index c s = Some i -> 0 <= i < Z.of_nat (String.length s).
Proof.
  revert i. induction s as [| d s IH]; cbn [index String.length]; intros i H.
  - discriminate.
  - destruct (Ascii.eqb c d).
    + injection H as <-. lia.
    + destruct (index c s) as [j |]; [| discriminate].
      injection H as <-. specialize (IH j eq_refl). lia.
Qed.

Lemma lower_lower (c : ascii) : lower (lower c) = lower c.
Proof. destruct c as [[] [] [] [] [] [] [] []]; reflexivity. Qed.

Lemma in_all_squares (f r : ascii) :
  In (String f (String r EmptyString)) all_squares
  <-> In f (list_ascii_of_string files) /\ In r (list_ascii_of_string ranks).
Proof.
  unfold all_squares. rewrite in_flat_map. split.
  - intros (f' & Hf & Hin). apply in_map_iff in Hin.
    destruct Hin as (r' & E & Hr). injection E as <- <-. auto.
  - intros [Hf Hr]. exists f. split; [exact Hf |].
    apply in_map_iff. exists r. auto.
Qed.

Lemma all_squares_two_chars (s : string) :
  In s all_squares -> exists f r, s = String f (String r EmptyString).
Proof.
  unfold all_squares. rewrite in_flat_map.
  intros (f & _ & Hin). apply in_map_iff in Hin.
  destruct Hin as (r & <- & _). eauto.
Qed.

(** X1. [chess_to_grid] succeeds exactly on the 64 squares, the file letter
    taken in either case: it succeeds on [s] if and only if [s] with its
    first character lower-cased is one of the 64 squares, it then gives what
    it gives for that square, and otherwise it raises
    [ValueError("Invalid square notation: s")]. *)
Theorem chess_to_grid_accepts_either_case (s : string) (use_channel : bool) :
  (In (lower_file s) all_squares ->
   exists p, chess_to_grid s use_channel = Ok p
             /\ chess_to_grid (lower_file s) use_channel = Ok p)
  /\ (~ In (lower_file s) all_squares ->
      chess_to_grid s use_channel = Raise_ (invalid_square s)).
Proof.
  split.
  - intros Hin.
    destruct (all_squares_two_chars _ Hin) as (f & r & E).
    destruct s as [| c0 [| c1 [| ? ?]]]; try discriminate E.
    cbn [lower_file] in *. injection E as <- <-.
    apply in_all_squares in Hin. destruct Hin as [Hf Hr].
    apply index_In in Hf, Hr. destruct Hf as [i Hi], Hr as [j Hj].
    unfold chess_to_grid. rewrite lower_lower, Hi, Hj.
    destruct use_channel; eexists; split; reflexivity.
  - intros Hout.
    destruct s as [| c0 [| c1 [| ? ?]]]; try reflexivity.
    unfold chess_to_grid.
    destruct (index (lower c0) files) as [i |] eqn:Hi; [| reflexivity].
    destruct (index c1 ranks) as [j |] eqn:Hj; [| reflexivity].
    exfalso. apply Hout. cbn [lower_file]. apply in_all_squares.
    split; apply index_In; eauto.
Qed.

Lemma chess_to_grid_accepts_either_case_witness :
  (exists p, chess_to_grid "E4" false = Ok p
             /\ chess_to_grid (lower_file "E4") false = Ok p)
  /\ chess_to_grid "e9" false = Raise_ (invalid_square "e9").
Proof.
  split.
  - apply (proj1 (chess_to_grid_accepts_either_case "E4" false)).
    vm_compute; tauto.
  - apply (proj2 (chess_to_grid_accepts_either_case "e9" false)).
    vm_compute. intuition discriminate.
Defined.

(** X2. Whenever [chess_to_grid] gives a channel point, the center of the
    same square is that point plus (1, 1); the channel point has x even in
    0..14 and y odd in 1..15, and both points are valid grid positions. *)
Theorem channel_point_is_below_left_of_center (s : string) (pc : Pos) :
  chess_to_grid s true = Ok pc ->
  chess_to_grid s false = Ok (mkPos (x pc + 1) (y pc + 1))
  /\ Z.even (x pc) = true /\ 0 <= x pc <= 14
  /\ Z.odd (y pc) = true /\ 1 <= y pc <= 15
  /\ is_valid_grid_position (x pc) (y pc) = true
  /\ is_valid_grid_position (x pc + 1) (y pc + 1) = true.
Proof.
  unfold chess_to_grid, square_size.
  destruct s as [| c0 [| c1 [| ? ?]]]; try discriminate.
  destruct (index (lower c0) files) as [i |] eqn:Hi; [| discriminate].
  destruct (index c1 ranks) as [j |] eqn:Hj; [| discriminate].
  intros H. injection H as <-. cbn [x y].
  apply index_bound in Hi, Hj.
  change (Z.of_nat (String.length files)) with 8 in Hi.
  change (Z.of_nat (String.length ranks)) with 8 in Hj.
  split; [f_equal; f_equal; lia |].
  split; [rewrite Z.even_mul; apply orb_true_r |].
  split; [lia |].
  split; [rewrite Z.odd_add, Z.odd_mul; cbn; rewrite andb_false_r; reflexivity |].
  split; [lia |].
  unfold is_valid_grid_position.
  rewrite !andb_true_iff, !Z.leb_le. lia.
Qed.

Lemma channel_point_is_below_left_of_center_witness :
  chess_to_grid "e4" false = Ok (mkPos (8 + 1) (7 + 1))
  /\ Z.even 8 = true /\ 0 <= 8 <= 14
  /\ Z.odd 7 = true /\ 1 <= 7 <= 15
  /\ is_valid_grid_position 8 7 = true
  /\ is_valid_grid_position (8 + 1) (7 + 1) = true.
Proof.
  apply (channel_point_is_below_left_of_center "e4" (mkPos 8 7)). reflexivity.
Defined.

(** The squares have distinct centers. *)
Lemma centers_distinct (a b : string) (p : Pos) :
  In a all_squares -> In b all_squares ->
  chess_to_grid a false = Ok p -> chess_to_grid b false = Ok p -> a = b.
Proof.
  intros Ha Hb Ea Eb.
  assert (Hall : forallb (fun a => forallb (fun b =>
            match chess_to_grid a false, chess_to_grid b false with
            | Ok pa, Ok pb => negb (Pos_eqb pa pb) || String.eqb a b
            | _, _ => false
            end) all_squares) all_squares = true)
    by (vm_compute; reflexivity).
  rewrite forallb_forall in Hall. specialize (Hall a Ha).
  rewrite forallb_forall in Hall. specialize (Hall b Hb).
  rewrite Ea, Eb in Hall.
  replace (Pos_eqb p p) with true in Hall by (symmetry; apply Pos_eqb_eq; reflexivity).
  apply String.eqb_eq. exact Hall.
Qed.

(** X3. [grid_to_chess] does not invert the default (channel) conversion:
    applied to the channel point of a square it raises when the square is on
    file a or on rank 1, and otherwise returns the square one file to the
    left and one rank down, never the square itself. *)
Theorem grid_to_chess_of_channel_point (s : string) :
  In s all_squares ->
  exists pc p,
    chess_to_grid s true = Ok pc /\ chess_to_grid s false = Ok p
    /\ grid_to_chess (x pc) (y pc) <> Ok s
    /\ (x p = 1 \/ y p = 2 -> exists e, grid_to_chess (x pc) (y pc) = Raise_ e)
    /\ (x p <> 1 -> y p <> 2 ->
        exists s', grid_to_chess (x pc) (y pc) = Ok s'
                   /\ In s' all_squares
                   /\ chess_to_grid s' false = Ok (mkPos (x p - 2) (y p - 2))).
Proof.
  intros Hin.
  assert (Hall : forallb (fun s =>
            match chess_to_grid s true, chess_to_grid s false with
            | Ok pc, Ok p =>
                match grid_to_chess (x pc) (y pc) with
                | Raise_ _ => (x p =? 1) || (y p =? 2)
                | Ok s' =>
                    negb (x p =? 1) && negb (y p =? 2)
                    && negb (String.eqb s' s)
                    && existsb (String.eqb s') all_squares
                    && match chess_to_grid s' false with
                       | Ok q => Pos_eqb q (mkPos (x p - 2) (y p - 2))
                       | Raise_ _ => false
                       end
                end
            | _, _ => false
            end) all_squares = true)
    by (vm_compute; reflexivity).
  rewrite forallb_forall in Hall. specialize (Hall s Hin).
  destruct (chess_to_grid s true) as [pc | e]; [| discriminate].
  destruct (chess_to_grid s false) as [p | e]; [| discriminate].
  exists pc, p. split; [reflexivity | split; [reflexivity |]].
  destruct (grid_to_chess (x pc) (y pc)) as [s' | e].
  - rewrite !andb_true_iff, !negb_true_iff, !Z.eqb_neq, String.eqb_neq in Hall.
    destruct Hall as ((((Hx & Hy) & Hne) & Hmem) & Hback).
    split; [congruence |]. split; [intros [H | H]; contradiction |].
    intros _ _. exists s'. split; [reflexivity |].
    split; [apply existsb_all_squares, Hmem |].
    destruct (chess_to_grid s' false) as [q | e]; [| discriminate].
    apply Pos_eqb_eq in Hback. congruence.
  - split; [discriminate |]. split; [intros _; eexists; reflexivity |].
    apply orb_true_iff in Hall. rewrite !Z.eqb_eq in Hall.
    intros Hx Hy. destruct Hall; contradiction.
Qed.

Lemma grid_to_chess_of_channel_point_witness :
  In "e4" all_squares /\
  exists pc p,
    chess_to_grid "e4" true = Ok pc /\ chess_to_grid "e4" false = Ok p
    /\ grid_to_chess (x pc) (y pc) <> Ok "e4"
    /\ (x p = 1 \/ y p = 2 -> exists e, grid_to_chess (x pc) (y pc) = Raise_ e)
    /\ (x p <> 1 -> y p <> 2 ->
        exists s', grid_to_chess (x pc) (y pc) = Ok s'
                   /\ In s' all_squares
                   /\ chess_to_grid s' false = Ok (mkPos (x p - 2) (y p - 2))).
Proof.
  assert (H : In "e4" all_squares) by (vm_compute; tauto).
  split; [exact H | exact (grid_to_chess_of_channel_point "e4" H)].
Defined.

(** Both conversions of a valid square. *)
Lemma chess_to_grid_both (s : string) :
  In s all_squares ->
  exists p, chess_to_grid s false = Ok p
            /\ chess_to_grid s true = Ok (mkPos (x p - 1) (y p - 1))
            /\ is_square_center p = true.
Proof.
  intros Hin.
  assert (Hall : forallb (fun s =>
            match chess_to_grid s false, chess_to_grid s true with
            | Ok p, Ok pc =>
                Pos_eqb pc (mkPos (x p - 1) (y p - 1)) && is_square_center p
            | _, _ => false
            end) all_squares = true)
    by (vm_compute; reflexivity).
  rewrite forallb_forall in Hall. specialize (Hall s Hin).
  destruct (chess_to_grid s false) as [p | e]; [| discriminate].
  destruct (chess_to_grid s true) as [pc | e]; [| discriminate].
  apply andb_true_iff in Hall. destruct Hall as [Hpc Hc].
  apply Pos_eqb_eq in Hpc. subst pc. exists p. auto.
Qed.

(** X4. The points [get_square_corners] and [get_edge_points] return are
    taken around the channel point of the square, not around its center:
    the [top_right] corner is the square's center and the [bottom_left]
    corner is the center minus (2, 2); the [right] edge point is the center
    minus (0, 1) and the [top] edge point the center minus (1, 0). The
    points are valid grid positions, except that for a square on file a the
    three points on the left have x = -1. *)
Theorem corners_and_edges_around_channel_point (s : string) :
  In s all_squares ->
  exists c e p,
    get_square_corners s = Ok c /\ get_edge_points s = Ok e
    /\ chess_to_grid s false = Ok p
    /\ top_right c = p
    /\ bottom_left c = mkPos (x p - 2) (y p - 2)
    /\ bottom_right c = mkPos (x p) (y p - 2)
    /\ top_left c = mkPos (x p - 2) (y p)
    /\ edge_right e = mkPos (x p) (y p - 1)
    /\ edge_top e = mkPos (x p - 1) (y p)
    /\ edge_left e = mkPos (x p - 2) (y p - 1)
    /\ edge_bottom e = mkPos (x p - 1) (y p - 2)
    /\ forallb in_grid [bottom_right c; top_right c;
                        edge_right e; edge_top e; edge_bottom e] = true
    /\ forallb in_grid [bottom_left c; top_left c; edge_left e]
       = negb (x p =? 1)
    /\ (x p = 1 -> x (bottom_left c) = -1 /\ x (top_left c) = -1
                   /\ x (edge_left e) = -1).
Proof.
  intros Hin.
  destruct (chess_to_grid_both s Hin) as (p & Ep & Epc & Cp).
  apply is_square_center_spec in Cp. destruct Cp as (_ & Hx & _ & Hy).
  unfold get_square_corners, get_edge_points. rewrite Epc. cbn [bind].
  destruct p as [px py]. cbn [x y] in *.
  do 2 eexists. exists (mkPos px py).
  split; [reflexivity |]. split; [reflexivity |]. split; [exact Ep |].
  cbn [top_right bottom_left bottom_right top_left
       edge_right edge_top edge_left edge_bottom x y].
  repeat (split; [f_equal; lia |]).
  unfold in_grid, is_valid_grid_position. cbn [forallb x y].
  split; [| split].
  - rewrite !andb_true_iff, !Z.leb_le. lia.
  - destruct (Z.eqb_spec px 1) as [E | E]; cbn [negb].
    + apply andb_false_iff. left. apply andb_false_iff. left.
      apply andb_false_iff. left. apply Z.leb_gt. lia.
    + rewrite !andb_true_iff, !Z.leb_le. lia.
  - intros E. repeat split; lia.
Qed.

Lemma corners_and_edges_around_channel_point_witness :
  In "a1" all_squares /\
  exists c e p,
    get_square_corners "a1" = Ok c /\ get_edge_points "a1" = Ok e
    /\ chess_to_grid "a1" false = Ok p
    /\ top_right c = p
    /\ bottom_left c = mkPos (x p - 2) (y p - 2)
    /\ bottom_right c = mkPos (x p) (y p - 2)
    /\ top_left c = mkPos (x p - 2) (y p)
    /\ edge_right e = mkPos (x p) (y p - 1)
    /\ edge_top e = mkPos (x p - 1) (y p)
    /\ edge_left e = mkPos (x p - 2) (y p - 1)
    /\ edge_bottom e = mkPos (x p - 1) (y p - 2)
    /\ forallb in_grid [bottom_right c; top_right c;
                        edge_right e; edge_top e; edge_bottom e] = true
    /\ forallb in_grid [bottom_left c; top_left c; edge_left e]
       = negb (x p =? 1)
    /\ (x p = 1 -> x (bottom_left c) = -1 /\ x (top_left c) = -1
                   /\ x (edge_left e) = -1).
Proof.
  assert (H : In "a1" all_squares) by (vm_compute; tauto).
  split; [exact H | exact (corners_and_edges_around_channel_point "a1" H)].
Defined.

(** X5. For two valid squares [distance_between_squares] gives the
    difference of their centers (twice the file and rank differences), with
    [manhattan] the sum of the absolute values; [manhattan] is 0 exactly when
    the squares are equal, and swapping the squares negates x and y and
    keeps [manhattan]. *)
Theorem distance_between_valid_squares (a b : string) :
  In a all_squares -> In b all_squares ->
  exists d d' pa pb,
    distance_between_squares a b = Ok d
    /\ distance_between_squares b a = Ok d'
    /\ chess_to_grid a false = Ok pa /\ chess_to_grid b false = Ok pb
    /\ dist_x d = x pb - x pa /\ dist_y d = y pb - y pa
    /\ Z.even (dist_x d) = true /\ Z.even (dist_y d) = true
    /\ manhattan d = Z.abs (dist_x d) + Z.abs (dist_y d)
    /\ 0 <= manhattan d <= 28
    /\ (manhattan d = 0 <-> a = b)
    /\ dist_x d' = - dist_x d /\ dist_y d' = - dist_y d
    /\ manhattan d' = manhattan d.
Proof.
  intros Ha Hb.
  destruct (chess_to_grid_both a Ha) as (pa & Epa & Eca & Ca).
  destruct (chess_to_grid_both b Hb) as (pb & Epb & Ecb & Cb).
  unfold distance_between_squares. rewrite Eca, Ecb. cbn [bind x y].
  do 2 eexists. exists pa, pb.
  split; [reflexivity |]. split; [reflexivity |].
  split; [exact Epa |]. split; [exact Epb |].
  cbn [dist_x dist_y manhattan].
  apply is_square_center_spec in Ca, Cb.
  destruct Ca as (Oa & Xa & Ya & Ra), Cb as (Ob & Xb & Yb & Rb).
  split; [lia |]. split; [lia |].
  split.
  { replace (x pb - 1 - (x pa - 1)) with (x pb - x pa) by lia.
    rewrite Z.even_sub, <- !Z.negb_odd, Oa, Ob. reflexivity. }
  split.
  { replace (y pb - 1 - (y pa - 1)) with (y pb - y pa) by lia.
    rewrite Z.even_sub, Ya, Yb. reflexivity. }
  split; [reflexivity |]. split; [lia |].
  split; [| repeat split; lia].
  split.
  - intros H0.
    assert (E : pa = pb) by (destruct pa, pb; cbn [x y] in *; f_equal; lia).
    subst pb. exact (centers_distinct a b pa Ha Hb Epa Epb).
  - intros <-. rewrite Epa in Epb. injection Epb as <-. lia.
Qed.

Lemma distance_between_valid_squares_witness :
  In "a1" all_squares /\ In "h8" all_squares /\
  exists d d' pa pb,
    distance_between_squares "a1" "h8" = Ok d
    /\ distance_between_squares "h8" "a1" = Ok d'
    /\ chess_to_grid "a1" false = Ok pa /\ chess_to_grid "h8" false = Ok pb
    /\ dist_x d = x pb - x pa /\ dist_y d = y pb - y pa
    /\ Z.even (dist_x d) = true /\ Z.even (dist_y d) = true
    /\ manhattan d = Z.abs (dist_x d) + Z.abs (dist_y d)
    /\ 0 <= manhattan d <= 28
    /\ (manhattan d = 0 <-> "a1" = "h8")
    /\ dist_x d' = - dist_x d /\ dist_y d' = - dist_y d
    /\ manhattan d' = manhattan d.
Proof.
  assert (Ha : In "a1" all_squares) by (vm_compute; tauto).
  assert (Hb : In "h8" all_squares) by (vm_compute; tauto).
  split; [exact Ha | split; [exact Hb |]].
  exact (distance_between_valid_squares "a1" "h8" Ha Hb).
Defined.

(** ** Interleaved allocations *)

Lemma get_next_discard_position_other (side : bool) (self : CoordinateConverter.t) :
  pile (negb side) (snd (get_next_discard_position side self))
  = pile (negb side) self.
Proof. destruct side; reflexivity. Qed.

Lemma slot_in_lane (k : nat) :
  Z.odd (slot k) = true /\ 1 <= slot k <= 15.
Proof.
  destruct (slot_cases k) as [[Hlt ->] | [_ ->]]; [| split; [reflexivity | lia]].
  split; [| lia].
  rewrite Z.add_comm, Z.odd_add_mul_2. reflexivity.
Qed.

Lemma run_calls_from (pre : list bool) :
  forall (side : bool) (post : list bool) (self : CoordinateConverter.t)
         (kw kb : nat),
    pile true self = map slot (seq 0 kw) ->
    pile false self = map slot (seq 0 kb) ->
    nth (List.length pre) (run_calls (pre ++ side :: post) self) home_position
    = mkPos (slot ((if side then kw else kb) + count_occ bool_dec pre side))
            (lane side).
Proof.
  induction pre as [| s pre IH]; intros side post self kw kb Hw Hb.
  - cbn [app run_calls List.length count_occ].
    destruct (get_next_discard_position_pile side self) as [Hp _].
    destruct (get_next_discard_position side self) as [p self'].
    cbn [fst nth] in *. rewrite Hp, Nat.add_0_r.
    destruct side; [rewrite Hw | rewrite Hb]; rewrite next_x_slots; reflexivity.
  - cbn [app run_calls List.length count_occ].
    destruct (get_next_discard_position_pile s self) as [_ Hs].
    pose proof (get_next_discard_position_other s self) as Ho.
    destruct (get_next_discard_position s self) as [p self'].
    cbn [snd nth] in *.
    destruct s.
    + cbn [negb] in Ho. rewrite Hw, next_x_slots in Hs.
      rewrite (IH side post self' (S kw) kb).
      * destruct side; destruct (bool_dec true true) as [_ | N];
          try contradiction; try (destruct (bool_dec true false); [discriminate |]);
          f_equal; f_equal; lia.
      * rewrite Hs, seq_S, map_app. reflexivity.
      * rewrite Ho. exact Hb.
    + cbn [negb] in Ho. rewrite Hb, next_x_slots in Hs.
      rewrite (IH side post self' kw (S kb)).
      * destruct side; destruct (bool_dec false false) as [_ | N];
          try contradiction; try (destruct (bool_dec false true); [discriminate |]);
          f_equal; f_equal; lia.
      * rewrite Ho. exact Hw.
      * rewrite Hs, seq_S, map_app. reflexivity.
Qed.

(** X6. The two discard lanes are allocated independently. In any sequence
    of calls of [get_next_discard_position] from a fresh converter, the
    position a call returns depends only on its side and on the number [k]
    of earlier calls for the same side: x is 2k+1 for k < 8 and 1 from then
    on, y is 18 for a white capture and 0 for a black one; it is always a
    valid grid position with x odd. *)
Theorem discard_lanes_are_independent (pre : list bool) (side : bool)
        (post : list bool) :
  let p := nth (List.length pre) (run_calls (pre ++ side :: post) init)
               home_position in
  let k := count_occ bool_dec pre side in
  x p = (if (k <? 8)%nat then 2 * Z.of_nat k + 1 else 1)
  /\ y p = (if side then 18 else 0)
  /\ Z.odd (x p) = true
  /\ in_grid p = true.
Proof.
  cbv zeta.
  rewrite (run_calls_from pre side post init 0 0) by reflexivity.
  replace ((if side then 0 else 0) + count_occ bool_dec pre side)%nat
    with (count_occ bool_dec pre side) by (destruct side; reflexivity).
  cbn [x y]. destruct (slot_in_lane (count_occ bool_dec pre side)) as [Hodd Hr].
  split; [reflexivity |]. split; [destruct side; reflexivity |].
  split; [exact Hodd |].
  unfold in_grid, is_valid_grid_position. cbn [x y].
  rewrite !andb_true_iff, !Z.leb_le.
  unfold lane, black_discard_y, white_discard_y. destruct side; lia.
Qed.

(** * Further properties of the planner *)

Lemma chess_to_grid_raises (s : string) (use_channel : bool) (e : exn) :
  chess_to_grid s use_channel = Raise_ e -> e = invalid_square s.
Proof.
  unfold chess_to_grid.
  destruct s as [| c0 [| c1 [| ? ?]]]; try (intros H; injection H as <-; reflexivity).
  destruct (index (lower c0) files); [| intros H; injection H as <-; reflexivity].
  destruct (index c1 ranks); [| intros H; injection H as <-; reflexivity].
  destruct use_channel; discriminate.
Qed.

Lemma castling_pairs_valid (a b : string) :
  In (a, b) castling_pairs -> In a all_squares /\ In b all_squares.
Proof.
  intros Hin. cbn [castling_pairs In] in Hin.
  repeat (destruct Hin as [Hin | Hin];
          [injection Hin as <- <-; split; vm_compute; tauto |]).
  contradiction.
Qed.

Lemma plan_path_invalid (a b : string) (is_capture is_white_move : bool) :
  (forall e, chess_to_grid a false = Raise_ e ->
             plan_path a b is_capture is_white_move = Raise_ (invalid_square a))
  /\ (forall p e, chess_to_grid a false = Ok p ->
                  chess_to_grid b false = Raise_ e ->
                  plan_path a b is_capture is_white_move
                  = Raise_ (invalid_square b)).
Proof.
  assert (Hnc : forall e, chess_to_grid a false = Raise_ e
                          \/ chess_to_grid b false = Raise_ e ->
                          _is_castling_move a b = false).
  { intros e Hbad. destruct (_is_castling_move a b) eqn:Hc; [| reflexivity].
    apply is_castling_move_pairs, castling_pairs_valid in Hc.
    destruct Hc as [Ha Hb].
    destruct (chess_to_grid_valid a Ha) as (pa & Ea & _).
    destruct (chess_to_grid_valid b Hb) as (pb & Eb & _).
    destruct Hbad; congruence. }
  split.
  - intros e He. unfold plan_path. rewrite (Hnc e (or_introl He)), He.
    cbn [bind]. rewrite (chess_to_grid_raises _ _ _ He). reflexivity.
  - intros p e Hp He. unfold plan_path. rewrite (Hnc e (or_intror He)), Hp, He.
    cbn [bind]. rewrite (chess_to_grid_raises _ _ _ He). reflexivity.
Qed.

(** X7. A move with a square that [chess_to_grid] refuses is not executed:
    [execute_chess_move] returns [False], prints "Error executing move:
    Invalid square notation: " with the first bad square (the source square
    if it is bad), and changes nothing else: nothing is written to the
    connection, whether there is one or not, and no discard slot is taken. *)
Theorem invalid_square_is_refused
        (a b : string) (is_capture : bool) (promotion_piece : option string)
        (is_castling : bool) (w : World) :
  (exists e, chess_to_grid a false = Raise_ e)
  \/ (exists e, chess_to_grid b false = Raise_ e) ->
  exists bad,
    ((exists e, chess_to_grid a false = Raise_ e) /\ bad = a
     \/ (exists p, chess_to_grid a false = Ok p) /\ bad = b)
    /\ execute_chess_move a b is_capture promotion_piece is_castling w
       = Returns (false,
                  {| arduino := arduino w;
                     converter := converter w;
                     stdout := stdout w
                               ++ [("Error executing move: "
                                    ++ ("Invalid square notation: " ++ bad))%string]
                  |}).
Proof.
  intros Hbad.
  destruct (plan_path_invalid a b is_capture true) as [Ha Hb].
  assert (Hplan : exists bad,
             ((exists e, chess_to_grid a false = Raise_ e) /\ bad = a
              \/ (exists p, chess_to_grid a false = Ok p) /\ bad = b)
             /\ plan_path a b is_capture true = Raise_ (invalid_square bad)).
  { destruct (chess_to_grid a false) as [p | e] eqn:Ea.
    - destruct Hbad as [[e He] | [e He]]; [discriminate |].
      exists b. split; [right; eauto | eapply Hb; eauto].
    - exists a. split; [left; eauto | eapply Ha; eauto]. }
  destruct Hplan as (bad & Hwhich & Hplan).
  exists bad. split; [exact Hwhich |].
  unfold execute_chess_move, plan_commands. rewrite Hplan.
  destruct (truthy promotion_piece); reflexivity.
Qed.

Lemma invalid_square_is_refused_witness :
  let conn := {| write_error := None; rx := [Line "Done"]; tx := [] |} in
  let w := {| arduino := Some conn; converter := init; stdout := [] |} in
  exists bad,
    ((exists e, chess_to_grid "e2" false = Raise_ e) /\ bad = "e2"
     \/ (exists p, chess_to_grid "e2" false = Ok p) /\ bad = "e9")
    /\ execute_chess_move "e2" "e9" true (Some "Q") true w
       = Returns (false,
                  {| arduino := arduino w;
                     converter := converter w;
                     stdout := stdout w
                               ++ [("Error executing move: "
                                    ++ ("Invalid square notation: " ++ bad))%string]
                  |}).
Proof.
  cbv zeta.
  apply (invalid_square_is_refused "e2" "e9" true (Some "Q") true
           {| arduino := Some {| write_error := None; rx := [Line "Done"];
                                 tx := [] |};
              converter := init; stdout := [] |}).
  right. eexists. reflexivity.
Defined.

(** Checked on all squares and flags: the gripper stays in the grid and,
    outside castling, ends on the destination center with nothing carried. *)
Lemma plan_path_positions (a b : string) (is_capture is_white_move : bool) :
  In a all_squares -> In b all_squares ->
  exists commands pb,
    plan_path a b is_capture is_white_move = Ok commands
    /\ chess_to_grid b false = Ok pb
    /\ forallb in_grid (positions commands) = true
    /\ (_is_castling_move a b = false ->
        last (positions commands) home_position = pb
        /\ carry_state_from commands home_position None = (pb, None)).
Proof.
  intros Ha Hb.
  assert (Hall : forallb (fun a => forallb (fun b => forallb (fun c =>
            forallb (fun w =>
              match plan_path a b c w, chess_to_grid b false with
              | Ok commands, Ok pb =>
                  forallb in_grid (positions commands)
                  && (_is_castling_move a b
                      || (Pos_eqb (last (positions commands) home_position) pb
                          && match carry_state_from commands home_position None with
                             | (q, None) => Pos_eqb q pb
                             | _ => false
                             end))
              | _, _ => false
              end) [true; false]) [true; false]) all_squares) all_squares = true)
    by (vm_compute; reflexivity).
  rewrite forallb_forall in Hall. specialize (Hall a Ha).
  rewrite forallb_forall in Hall. specialize (Hall b Hb).
  rewrite forallb_forall in Hall.
  specialize (Hall is_capture ltac:(destruct is_capture; simpl; tauto)).
  rewrite forallb_forall in Hall.
  specialize (Hall is_white_move ltac:(destruct is_white_move; simpl; tauto)).
  destruct (plan_path a b is_capture is_white_move) as [commands | e];
    [| discriminate].
  destruct (chess_to_grid b false) as [pb | e]; [| discriminate].
  exists commands, pb. split; [reflexivity | split; [reflexivity |]].
  apply andb_true_iff in Hall. destruct Hall as [Hgrid Hend].
  split; [exact Hgrid |].
  intros Hnc. rewrite Hnc in Hend. cbn [orb] in Hend.
  apply andb_true_iff in Hend. destruct Hend as [Hlast Hstate].
  apply Pos_eqb_eq in Hlast. split; [exact Hlast |].
  destruct (carry_state_from commands home_position None) as [q [cur |]];
    [discriminate |].
  apply Pos_eqb_eq in Hstate. subst q. reflexivity.
Qed.

(** X8. For valid squares and any flags, the path [plan_path] returns keeps
    the gripper on valid grid positions after every command; when the move
    is not one of the castling pairs, the gripper ends on the center of the
    destination square. *)
Theorem planned_path_stays_in_grid (a b : string) (is_capture is_white_move : bool) :
  In a all_squares -> In b all_squares ->
  exists commands pb,
    plan_path a b is_capture is_white_move = Ok commands
    /\ chess_to_grid b false = Ok pb
    /\ (forall p, In p (positions commands) ->
                  is_valid_grid_position (x p) (y p) = true)
    /\ (_is_castling_move a b = false ->
        last (positions commands) home_position = pb).
Proof.
  intros Ha Hb.
  destruct (plan_path_positions a b is_capture is_white_move Ha Hb)
    as (commands & pb & Hplan & Epb & Hgrid & Hend).
  exists commands, pb. split; [exact Hplan | split; [exact Epb |]].
  split.
  - intros p Hp. rewrite forallb_forall in Hgrid. exact (Hgrid p Hp).
  - intros Hnc. exact (proj1 (Hend Hnc)).
Qed.

Lemma planned_path_stays_in_grid_witness :
  In "h7" all_squares /\ In "a8" all_squares /\
  exists commands pb,
    plan_path "h7" "a8" true false = Ok commands
    /\ chess_to_grid "a8" false = Ok pb
    /\ (forall p, In p (positions commands) ->
                  is_valid_grid_position (x p) (y p) = true)
    /\ (_is_castling_move "h7" "a8" = false ->
        last (positions commands) home_position = pb).
Proof.
  assert (Ha : In "h7" all_squares) by (vm_compute; tauto).
  assert (Hb : In "a8" all_squares) by (vm_compute; tauto).
  split; [exact Ha | split; [exact Hb |]].
  exact (planned_path_stays_in_grid "h7" "a8" true false Ha Hb).
Defined.

(** ** Raise and lower alternate *)

Lemma carrying_after_app (l1 l2 : list Command) :
  forall c, carrying_after c (l1 ++ l2)
            = match carrying_after c l1 with
              | Some c' => carrying_after c' l2
              | None => None
              end.
Proof.
  induction l1 as [| cmd l1 IH]; intros c; [reflexivity |].
  destruct cmd; cbn [app carrying_after]; try apply IH; destruct c; auto.
Qed.

Lemma carrying_after_moves (l : list Command) :
  forallb is_move l = true -> forall c, carrying_after c l = Some c.
Proof.
  induction l as [| cmd l IH]; intros H c; [reflexivity |].
  cbn [forallb] in H. apply andb_true_iff in H. destruct H as [Hm Hl].
  destruct cmd; try discriminate. cbn [carrying_after]. auto.
Qed.

Lemma horizontal_moves (f t : Pos) (dx dy : Z) :
  forallb is_move (_plan_horizontal_edge_movement f t dx dy) = true.
Proof.
  unfold _plan_horizontal_edge_movement.
  repeat match goal with
         | |- context [if negb ?c then _ else _] => destruct (negb c)
         end; reflexivity.
Qed.

Lemma vertical_moves (f t : Pos) (dx dy : Z) :
  forallb is_move (_plan_vertical_edge_movement f t dx dy) = true.
Proof.
  unfold _plan_vertical_edge_movement.
  repeat match goal with
         | |- context [if negb ?c then _ else _] => destruct (negb c)
         end; reflexivity.
Qed.

Lemma edge_movement_moves (f t : Pos) (carrying_piece : bool) :
  forallb is_move (_plan_edge_movement f t carrying_piece) = true.
Proof.
  unfold _plan_edge_movement. destruct carrying_piece; cbn [negb].
  - destruct (Z.abs (x t - x f) >=? Z.abs (y t - y f));
      [apply horizontal_moves | apply vertical_moves].
  - destruct (negb (x t - x f =? 0) || negb (y t - y f =? 0)); reflexivity.
Qed.

Lemma discard_movement_moves (f d : Pos) :
  forallb is_move (_plan_discard_movement f d) = true.
Proof.
  unfold _plan_discard_movement.
  repeat match goal with
         | |- context [if negb ?c then _ else _] => destruct (negb c)
         end; reflexivity.
Qed.

(** Steps through a choreography written as a chain of appends. *)
Ltac step_carrying :=
  repeat first
    [ rewrite (carrying_after_moves _ (edge_movement_moves _ _ _))
    | rewrite (carrying_after_moves _ (discard_movement_moves _ _))
    | rewrite carrying_after_app
    | progress cbn [carrying_after app] ].

Lemma plan_path_alternates
      (a b : string) (is_capture is_white_move : bool) (commands : list Command) :
  plan_path a b is_capture is_white_move = Ok commands ->
  carrying_after false commands = Some false.
Proof.
  unfold plan_path, _plan_castling_path.
  destruct (_is_castling_move a b).
  - destruct (String.eqb b "g1" || String.eqb b "g8");
      repeat match goal with
             | |- context [bind (chess_to_grid ?s false) _] =>
                 destruct (chess_to_grid s false); cbn [bind]
             end;
      try discriminate; intros H; injection H as <-;
      cbn [app carrying_after]; step_carrying; reflexivity.
  - destruct (chess_to_grid a false); cbn [bind]; [| discriminate].
    destruct (chess_to_grid b false); cbn [bind]; [| discriminate].
    destruct is_capture; intros H; injection H as <-;
      cbn [app carrying_after]; step_carrying; reflexivity.
Qed.

(** X9. In every choreography [execute_chess_move] plans - plain move,
    capture, castling, with or without the promotion sequence - raise and
    lower alternate: no [raise] is issued while a piece is up, no [home] is
    issued while a piece is up, and the choreography ends with the piece
    lowered. *)
Theorem choreography_raise_lower_alternate
        (a b : string) (is_capture : bool) (promotion_piece : option string)
        (is_castling : bool) (conv conv' : CoordinateConverter.t)
        (commands : list Command) :
  plan_commands a b is_capture promotion_piece is_castling conv
  = Ok (commands, conv') ->
  carrying_after false commands = Some false.
Proof.
  unfold plan_commands.
  destruct (plan_path a b is_capture true) as [cmds | e] eqn:Eplan;
    [| destruct (truthy promotion_piece); discriminate].
  pose proof (plan_path_alternates _ _ _ _ _ Eplan) as Halt.
  destruct (truthy promotion_piece) as [piece |]; cbn [bind].
  - unfold _plan_promotion_sequence.
    destruct (chess_to_grid b false) as [pc | e]; cbn [bind]; [| discriminate].
    destruct (get_next_discard_position true conv) as [temp_discard conv''].
    cbn [bind fst snd]. intros H. injection H as <- <-.
    rewrite carrying_after_app, Halt. cbn [app].
    step_carrying. reflexivity.
  - intros H. injection H as <- <-. exact Halt.
Qed.

Lemma choreography_raise_lower_alternate_witness :
  carrying_after false
    [Lower; Home; Move 9 14; Raise; Move 1 0; Move 0 1; Move (-2) 0; Move 1 1;
     Lower; Move 9 16; Raise; Move 0 1; Move (-9) 0; Lower; Home; Promote "Q";
     Move 9 16; Raise; Move 0 15; Move 8 0; Lower]
  = Some false.
Proof.
  apply (choreography_raise_lower_alternate "e7" "e8" false (Some "Q") false
           init {| white_captured_pieces := []; black_captured_pieces := [1] |}).
  reflexivity.
Defined.

(** ** Castling, all four king pairs *)

(** X10. For each of the four king pairs and either colour flag, the path
    is the castling path with exactly two raise/lower cycles: the king from
    its square to its destination, then the rook. The rook's squares are
    chosen by the king's destination file and by [is_white_move] alone: from
    the h-file corner (x = 15) to the f-file (x = 11) when the king goes to
    the g-file (x = 13), from the a-file corner (x = 1) to the d-file (x = 7)
    otherwise, on rank 1 (y = 2) when [is_white_move] is true and on rank 8
    (y = 16) when it is false, whatever the king's rank. No carried piece
    crosses a square center. *)
Theorem castling_paths (a b : string) (is_capture is_white_move : bool) :
  In (a, b) castling_pairs ->
  exists commands kf kt,
    let rf := mkPos (if x kt =? 13 then 15 else 1)
                    (if is_white_move then 2 else 16) in
    let rt := mkPos (if x kt =? 13 then 11 else 7)
                    (if is_white_move then 2 else 16) in
    plan_path a b is_capture is_white_move = Ok commands
    /\ chess_to_grid a false = Ok kf /\ chess_to_grid b false = Ok kt
    /\ commands = [Lower; Home] ++ plain_cycle kf kt ++ [Home] ++ plain_cycle rf rt
    /\ map (fun c => (lift c, settle c)) (cycles commands) = [(kf, kt); (rf, rt)]
    /\ count_raise commands = 2%nat
    /\ clear_of_centers commands = true.
Proof.
  intros Hin. cbn [castling_pairs In] in Hin.
  repeat (destruct Hin as [Hin | Hin];
          [injection Hin as <- <-;
           destruct is_capture, is_white_move;
           do 3 eexists; cbv zeta;
           (split; [cbv; reflexivity |]); (split; [cbv; reflexivity |]);
           (split; [cbv; reflexivity |]);
           vm_compute; repeat split |]).
  contradiction.
Qed.

Lemma castling_paths_witness :
  exists commands kf kt,
    let rf := mkPos (if x kt =? 13 then 15 else 1) (if true then 2 else 16) in
    let rt := mkPos (if x kt =? 13 then 11 else 7) (if true then 2 else 16) in
    plan_path "e8" "c8" false true = Ok commands
    /\ chess_to_grid "e8" false = Ok kf /\ chess_to_grid "c8" false = Ok kt
    /\ commands = [Lower; Home] ++ plain_cycle kf kt ++ [Home] ++ plain_cycle rf rt
    /\ map (fun c => (lift c, settle c)) (cycles commands) = [(kf, kt); (rf, rt)]
    /\ count_raise commands = 2%nat
    /\ clear_of_centers commands = true.
Proof.
  apply (castling_paths "e8" "c8" false true). vm_compute. tauto.
Defined.

(** ** The promotion sequence *)

Lemma cycles_from_app (l1 l2 : list Command) :
  forall at_ cur,
    cycles_from (l1 ++ l2) at_ cur
    = cycles_from l1 at_ cur
      ++ cycles_from l2 (fst (carry_state_from l1 at_ cur))
                        (snd (carry_state_from l1 at_ cur)).
Proof.
  induction l1 as [| c l1 IH]; intros at_ cur; [reflexivity |].
  destruct c; cbn [app cycles_from carry_state_from]; try apply IH.
  destruct cur as [[l ps] |]; [cbn [app]; f_equal |]; apply IH.
Qed.

(** Displacements after a raise, then a lower: one cycle, lifted where the
    raise was. *)
Lemma cycles_from_moves_lower (moves rest : list Command) :
  forallb is_move moves = true ->
  forall at_ l ps,
    exists ps' at',
      cycles_from (moves ++ Lower :: rest) at_ (Some (l, ps))
      = {| lift := l; passed := ps'; settle := at' |}
        :: cycles_from rest at' None.
Proof.
  induction moves as [| c moves IH]; intros Hm at_ l ps.
  - cbn [app cycles_from]. eauto.
  - cbn [forallb] in Hm. apply andb_true_iff in Hm. destruct Hm as [Hc Hm].
    destruct c; try discriminate. cbn [app cycles_from extend]. apply IH, Hm.
Qed.

Lemma approach_center (p : Pos) :
  is_square_center p = true ->
  _plan_edge_movement home_position p false = [Move (x p) (y p)].
Proof.
  rewrite is_square_center_spec. intros (_ & Hx & _).
  unfold _plan_edge_movement, home_position, get_home_position. cbn [negb x y].
  rewrite !Z.sub_0_r.
  destruct (Z.eqb_spec (x p) 0); [lia | reflexivity].
Qed.

(** X11. In a move with a promotion piece (not a castling pair), the
    promotion sequence is appended to a path that has left the gripper on
    the promotion square, but its first displacement is computed from home:
    the pawn is therefore not picked up on the promotion square (px, py)
    but at (2*px, 2*py), which is outside the grid when the square is on
    rank 8. The sequence takes exactly one slot of the black discard lane
    and contains the [PROMOTE:piece] marker. *)
Theorem promotion_sequence_starts_off_home
        (a b : string) (is_capture : bool) (piece : string) (is_castling : bool)
        (conv : CoordinateConverter.t) :
  In a all_squares -> In b all_squares ->
  _is_castling_move a b = false ->
  piece <> EmptyString ->
  exists commands conv' pb c,
    plan_commands a b is_capture (Some piece) is_castling conv
    = Ok (commands, conv')
    /\ chess_to_grid b false = Ok pb
    /\ black_captured_pieces conv'
       = black_captured_pieces conv ++ [next_x (black_captured_pieces conv)]
    /\ white_captured_pieces conv' = white_captured_pieces conv
    /\ In (Promote piece) commands
    /\ In c (cycles commands)
    /\ lift c = mkPos (2 * x pb) (2 * y pb)
    /\ lift c <> pb
    /\ (y pb = 16 -> in_grid (lift c) = false).
Proof.
  intros Ha Hb Hnc Hpiece.
  destruct (plan_path_positions a b is_capture true Ha Hb)
    as (plan & pb & Hplan & Epb & _ & Hend).
  destruct (Hend Hnc) as [_ Hstate].
  destruct (chess_to_grid_valid b Hb) as (pb' & Epb' & Cpb).
  rewrite Epb in Epb'. injection Epb' as <-.
  pose proof (get_next_discard_position_pile true conv) as [Hslot Hpile].
  pose proof (get_next_discard_position_other true conv) as Hother.
  cbn [pile negb] in Hpile, Hother.
  unfold plan_commands.
  assert (Htruthy : truthy (Some piece) = Some piece)
    by (destruct piece; [contradiction | reflexivity]).
  rewrite Htruthy, Hplan. cbn [bind].
  unfold _plan_promotion_sequence. rewrite Epb. cbn [bind].
  destruct (get_next_discard_position true conv) as [temp_discard conv'].
  cbn [fst snd] in *. rewrite (approach_center pb Cpb).
  repeat (rewrite <- app_assoc || cbn [app]).
  destruct (cycles_from_moves_lower
              (_plan_edge_movement pb temp_discard true)
              (Home :: Promote piece :: Move (x pb) (y pb) :: Raise
                :: _plan_edge_movement home_position pb true ++ [Lower])
              (edge_movement_moves _ _ _)
              (mkPos (x pb + x pb) (y pb + y pb))
              (mkPos (x pb + x pb) (y pb + y pb)) [])
    as (ps' & at' & Hcycle).
  eexists. exists conv', pb.
  exists {| lift := mkPos (x pb + x pb) (y pb + y pb);
            passed := ps'; settle := at' |}.
  split; [reflexivity |]. split; [reflexivity |].
  split; [exact Hpile |]. split; [exact Hother |].
  split.
  { apply in_or_app. right. right. right.
    apply in_or_app. right. right. right. left. reflexivity. }
  split.
  { unfold cycles. rewrite cycles_from_app, Hstate. cbn [fst snd].
    apply in_or_app. right. cbn [cycles_from].
    rewrite Hcycle. left. reflexivity. }
  cbn [lift]. apply is_square_center_spec in Cpb.
  destruct Cpb as (_ & Hx & _ & Hy).
  split; [f_equal; lia |].
  split.
  - destruct pb as [px py]. cbn [x y] in *. intros E. injection E as E1 E2. lia.
  - intros Hrank. unfold in_grid, is_valid_grid_position. cbn [x y].
    apply andb_false_iff. right. apply andb_false_iff. right.
    apply Z.leb_gt. lia.
Qed.

Lemma promotion_sequence_starts_off_home_witness :
  In "e7" all_squares /\ In "e8" all_squares /\
  exists commands conv' pb c,
    plan_commands "e7" "e8" false (Some "Q") false init = Ok (commands, conv')
    /\ chess_to_grid "e8" false = Ok pb
    /\ black_captured_pieces conv'
       = black_captured_pieces init ++ [next_x (black_captured_pieces init)]
    /\ white_captured_pieces conv' = white_captured_pieces init
    /\ In (Promote "Q") commands
    /\ In c (cycles commands)
    /\ lift c = mkPos (2 * x pb) (2 * y pb)
    /\ lift c <> pb
    /\ (y pb = 16 -> in_grid (lift c) = false).
Proof.
  assert (Ha : In "e7" all_squares) by (vm_compute; tauto).
  assert (Hb : In "e8" all_squares) by (vm_compute; tauto).
  split; [exact Ha | split; [exact Hb |]].
  apply (promotion_sequence_starts_off_home "e7" "e8" false "Q" false init Ha Hb).
  - reflexivity.
  - discriminate.
Defined.

(** * Further properties of the dispatch *)

Lemma await_ack_consumes (command : string) (pending : list Event) :
  forall ok rest printed,
    await_ack command pending = Returns (ok, rest, printed) ->
    exists consumed, pending = consumed ++ rest /\ consumed <> [].
Proof.
  induction pending as [| ev pending IH]; intros ok rest printed H;
    cbn [await_ack] in H; [discriminate |].
  destruct ev as [text | msg].
  - destruct (startswith (strip text) "Done").
    + injection H as <- <- <-. exists [Line text]. split; [reflexivity | discriminate].
    + destruct (startswith (strip text) "Error").
      * injection H as <- <- <-. exists [Line text].
        split; [reflexivity | discriminate].
      * destruct (IH _ _ _ H) as (consumed & -> & _).
        exists (Line text :: consumed). split; [reflexivity | discriminate].
  - injection H as <- <- <-. exists [Fault msg]. split; [reflexivity | discriminate].
Qed.

(** X12. Over a connection, the loop of [execute_chess_move] writes a prefix
    of the choreography, one line per command and in order, and reads a
    prefix of what the controller sends. When it returns [True] every
    command was written; when it returns [False] it stopped at the command
    that failed and wrote none of the later ones. The converter is not
    touched. *)
Theorem send_all_transmits_a_prefix (commands : list Command) :
  forall (w w' : World) (conn : Serial) (ok : bool),
    arduino w = Some conn ->
    send_all commands w = Returns (ok, w') ->
    exists conn' k consumed,
      arduino w' = Some conn'
      /\ (k <= List.length commands)%nat
      /\ tx conn' = tx conn ++ map sent_line (firstn k commands)
      /\ rx conn = consumed ++ rx conn'
      /\ (ok = true -> k = List.length commands)
      /\ (ok = false -> write_error conn = None -> (1 <= k)%nat)
      /\ converter w' = converter w.
Proof.
  induction commands as [| c commands IH]; intros w w' conn ok Hconn Hrun.
  - cbn [send_all] in Hrun. injection Hrun as <- <-.
    exists conn, 0%nat, []. cbn [firstn map List.length app].
    rewrite app_nil_r. repeat split; auto; discriminate.
  - cbn [send_all] in Hrun. unfold send_command in Hrun. rewrite Hconn in Hrun.
    destruct (write_error conn) as [msg |] eqn:Hwrite.
    + injection Hrun as <- <-. exists conn, 0%nat, [].
      cbn [firstn map app print arduino converter]. rewrite app_nil_r.
      repeat split; auto; try lia; discriminate.
    + destruct (await_ack (wire c) (rx conn)) as [[[ack rest] printed] |] eqn:Hack;
        [| discriminate].
      destruct (await_ack_consumes _ _ _ _ _ Hack) as (consumed & Hrx & _).
      destruct ack.
      * cbn [with_arduino arduino converter stdout] in Hrun.
        eapply IH in Hrun; [| cbn [arduino]; reflexivity].
        destruct Hrun
          as (conn' & k & consumed' & Hc' & Hk & Htx & Hrx' & Hok & Hfail & Hconv).
        cbn [tx rx write_error converter] in *.
        exists conn', (S k), (consumed ++ consumed').
        split; [exact Hc' |]. split; [cbn [List.length]; lia |].
        split; [rewrite Htx; cbn [firstn map]; rewrite <- app_assoc; reflexivity |].
        split; [rewrite Hrx, Hrx', app_assoc; reflexivity |].
        split; [intros E; cbn [List.length]; f_equal; auto |].
        split; [intros; lia | exact Hconv].
      * injection Hrun as <- <-.
        cbn [with_arduino arduino converter stdout].
        eexists. exists 1%nat, consumed.
        split; [reflexivity |]. cbn [tx rx firstn map List.length].
        repeat split; auto; try lia; discriminate.
Qed.

Lemma send_all_transmits_a_prefix_witness :
  let conn := {| write_error := None;
                 rx := [Line "Done"; Line "busy"; Line "Error: stall"; Line "Done"];
                 tx := [] |} in
  let w := {| arduino := Some conn; converter := init; stdout := [] |} in
  let commands := [Lower; Home; Move 9 4; Raise] in
  exists conn' k consumed,
    arduino {| arduino := Some {| write_error := None; rx := [Line "Done"];
                                  tx := ["lower" ++ String "010" "";
                                         "home" ++ String "010" ""]%string |};
               converter := init;
               stdout := ["Arduino error: Error: stall"] |} = Some conn'
    /\ (k <= List.length commands)%nat
    /\ tx conn' = tx conn ++ map sent_line (firstn k commands)
    /\ rx conn = consumed ++ rx conn'
    /\ (false = true -> k = List.length commands)
    /\ (false = false -> write_error conn = None -> (1 <= k)%nat)
    /\ converter {| arduino := Some {| write_error := None; rx := [Line "Done"];
                                       tx := ["lower" ++ String "010" "";
                                              "home" ++ String "010" ""]%string |};
                    converter := init;
                    stdout := ["Arduino error: Error: stall"] |} = converter w.
Proof.
  cbv zeta.
  apply (send_all_transmits_a_prefix [Lower; Home; Move 9 4; Raise]
           {| arduino := Some {| write_error := None;
                                 rx := [Line "Done"; Line "busy";
                                        Line "Error: stall"; Line "Done"];
                                 tx := [] |};
              converter := init; stdout := [] |}).
  - reflexivity.
  - reflexivity.
Defined.

(** X13. When the port accepts writes and the controller answers each
    command with one line that starts with [Done] (white space around it is
    ignored), the loop sends the whole choreography in order, reads exactly
    one line per command, prints nothing and returns [True]. *)
Theorem acknowledged_choreography_is_sent (commands : list Command) :
  forall (w : World) (conn : Serial) (acks : list string) (rest : list Event),
    arduino w = Some conn ->
    write_error conn = None ->
    rx conn = map Line acks ++ rest ->
    List.length acks = List.length commands ->
    forallb is_done acks = true ->
    send_all commands w
    = Returns (true,
               {| arduino := Some {| write_error := None;
                                     rx := rest;
                                     tx := tx conn ++ map sent_line commands |};
                  converter := converter w;
                  stdout := stdout w |}).
Proof.
  induction commands as [| c commands IH];
    intros w conn acks rest Hconn Hwrite Hrx Hlen Hdone.
  - destruct acks; [| discriminate]. cbn [map app] in Hrx.
    cbn [send_all map]. rewrite app_nil_r.
    destruct w as [ard conv out], conn as [we r t]. cbn in *. subst. reflexivity.
  - destruct acks as [| ack acks]; [discriminate |].
    cbn [map app] in Hrx. cbn [forallb] in Hdone.
    apply andb_true_iff in Hdone. destruct Hdone as [Hack Hdone].
    cbn [send_all]. unfold send_command. rewrite Hconn, Hwrite, Hrx.
    cbn [await_ack]. unfold is_done in Hack. rewrite Hack.
    cbn [with_arduino arduino converter stdout]. rewrite app_nil_r.
    erewrite IH with (acks := acks) (rest := rest);
      [ | cbn [arduino]; reflexivity | reflexivity | reflexivity
        | cbn in Hlen; lia | exact Hdone ].
    cbn [tx converter stdout map]. rewrite <- app_assoc. reflexivity.
Qed.

Lemma acknowledged_choreography_is_sent_witness :
  let conn := {| write_error := None;
                 rx := map Line ["Done"; " Done moving "; "Done"] ++ [Line "idle"];
                 tx := [] |} in
  let w := {| arduino := Some conn; converter := init; stdout := [] |} in
  send_all [Lower; Home; Move 9 4] w
  = Returns (true,
             {| arduino := Some {| write_error := None;
                                   rx := [Line "idle"];
                                   tx := tx conn ++ map sent_line [Lower; Home; Move 9 4] |};
                converter := converter w;
                stdout := stdout w |}).
Proof.
  cbv zeta.
  apply (acknowledged_choreography_is_sent [Lower; Home; Move 9 4]
           {| arduino := Some {| write_error := None;
                                 rx := map Line ["Done"; " Done moving "; "Done"]
                                       ++ [Line "idle"];
                                 tx := [] |};
              converter := init; stdout := [] |}
           {| write_error := None;
              rx := map Line ["Done"; " Done moving "; "Done"] ++ [Line "idle"];
              tx := [] |}
           ["Done"; " Done moving "; "Done"] [Line "idle"]);
    reflexivity.
Defined.

Lemma await_ack_noise (command : string) (pending : list Event) :
  forallb is_noise pending = true -> await_ack command pending = Hangs.
Proof.
  induction pending as [| ev pending IH]; intros H; [reflexivity |].
  cbn [forallb] in H. apply andb_true_iff in H. destruct H as [Hev Hrest].
  destruct ev as [text | msg]; [| discriminate].
  cbn [is_noise] in Hev. apply andb_true_iff in Hev.
  destruct Hev as [Hd He]. apply negb_true_iff in Hd, He.
  cbn [await_ack]. rewrite Hd, He. auto.
Qed.

(** X14. There is no timeout on the acknowledgement: when the port accepts
    writes and the controller sends no line that starts with [Done] or
    [Error] (it is silent, or sends only other lines) and raises no fault,
    [execute_chess_move] for valid squares never returns. *)
Theorem silent_controller_blocks_execution
        (a b : string) (is_capture : bool) (promotion_piece : option string)
        (is_castling : bool) (w : World) (conn : Serial) :
  In a all_squares -> In b all_squares ->
  arduino w = Some conn ->
  write_error conn = None ->
  forallb is_noise (rx conn) = true ->
  execute_chess_move a b is_capture promotion_piece is_castling w = Hangs.
Proof.
  intros Ha Hb Hconn Hwrite Hnoise.
  destruct (plan_commands_valid a b is_capture promotion_piece is_castling
              (converter w) Ha Hb) as (commands & conv' & Hplan).
  destruct (plan_commands_starts_with_lower _ _ _ _ _ _ _ _ Hplan) as [more ->].
  unfold execute_chess_move. rewrite Hplan.
  cbn [send_all]. unfold send_command. cbn [arduino].
  rewrite Hconn, Hwrite, (await_ack_noise _ _ Hnoise). reflexivity.
Qed.

Lemma silent_controller_blocks_execution_witness :
  In "e2" all_squares /\ In "e4" all_squares /\
  execute_chess_move "e2" "e4" false None false
    {| arduino := Some {| write_error := None;
                          rx := [Line "booting"; Line ""];
                          tx := [] |};
       converter := init; stdout := [] |}
  = Hangs.
Proof.
  assert (Ha : In "e2" all_squares) by (vm_compute; tauto).
  assert (Hb : In "e4" all_squares) by (vm_compute; tauto).
  split; [exact Ha | split; [exact Hb |]].
  apply (silent_controller_blocks_execution "e2" "e4" false None false
           {| arduino := Some {| write_error := None;
                                 rx := [Line "booting"; Line ""];
                                 tx := [] |};
              converter := init; stdout := [] |}
           {| write_error := None; rx := [Line "booting"; Line ""]; tx := [] |}
           Ha Hb);
    reflexivity.
Defined.

(** X15. When the port refuses the write, [execute_chess_move] for valid
    squares fails on the first command: it returns [False], prints
    "Error sending command 'lower': " with the exception's text, and neither
    writes nor reads anything. The choreography had been planned before, so
    with a promotion piece the discard slot it allocated stays taken. *)
Theorem write_failure_aborts
        (a b : string) (is_capture : bool) (promotion_piece : option string)
        (is_castling : bool) (w : World) (conn : Serial) (msg : string) :
  In a all_squares -> In b all_squares ->
  arduino w = Some conn ->
  write_error conn = Some msg ->
  exists commands conv',
    plan_commands a b is_capture promotion_piece is_castling (converter w)
    = Ok (commands, conv')
    /\ execute_chess_move a b is_capture promotion_piece is_castling w
       = Returns (false,
                  {| arduino := Some conn;
                     converter := conv';
                     stdout := stdout w ++ [send_error "lower" msg] |})
    /\ forall piece, truthy promotion_piece = Some piece ->
         black_captured_pieces conv'
         = black_captured_pieces (converter w)
           ++ [next_x (black_captured_pieces (converter w))].
Proof.
  intros Ha Hb Hconn Hwrite.
  destruct (plan_commands_valid a b is_capture promotion_piece is_castling
              (converter w) Ha Hb) as (commands & conv' & Hplan).
  exists commands, conv'. split; [exact Hplan |].
  destruct (plan_commands_starts_with_lower _ _ _ _ _ _ _ _ Hplan) as [more ->].
  split.
  - unfold execute_chess_move. rewrite Hplan.
    cbn [send_all]. unfold send_command. cbn [arduino].
    rewrite Hconn, Hwrite. reflexivity.
  - intros piece Hpiece. unfold plan_commands in Hplan. rewrite Hpiece in Hplan.
    destruct (plan_path a b is_capture true) as [plan | e]; cbn [bind] in Hplan;
      [| discriminate].
    unfold _plan_promotion_sequence in Hplan.
    destruct (chess_to_grid b false) as [pb | e]; cbn [bind] in Hplan;
      [| discriminate].
    pose proof (get_next_discard_position_pile true (converter w)) as [_ Hpile].
    destruct (get_next_discard_position true (converter w)) as [td conv''].
    cbn [bind fst snd pile] in *. injection Hplan as _ <-. exact Hpile.
Qed.

Lemma write_failure_aborts_witness :
  let conn := {| write_error := Some "write failed: device disconnected";
                 rx := []; tx := [] |} in
  let w := {| arduino := Some conn; converter := init; stdout := [] |} in
  In "e7" all_squares /\ In "e8" all_squares /\
  exists commands conv',
    plan_commands "e7" "e8" false (Some "Q") false (converter w)
    = Ok (commands, conv')
    /\ execute_chess_move "e7" "e8" false (Some "Q") false w
       = Returns (false,
                  {| arduino := Some conn;
                     converter := conv';
                     stdout := stdout w
                               ++ [send_error "lower"
                                     "write failed: device disconnected"] |})
    /\ forall piece, truthy (Some "Q") = Some piece ->
         black_captured_pieces conv'
         = black_captured_pieces (converter w)
           ++ [next_x (black_captured_pieces (converter w))].
Proof.
  cbv zeta.
  assert (Ha : In "e7" all_squares) by (vm_compute; tauto).
  assert (Hb : In "e8" all_squares) by (vm_compute; tauto).
  split; [exact Ha | split; [exact Hb |]].
  apply (write_failure_aborts "e7" "e8" false (Some "Q") false
           {| arduino := Some {| write_error := Some "write failed: device disconnected";
                                 rx := []; tx := [] |};
              converter := init; stdout := [] |}
           {| write_error := Some "write failed: device disconnected";
              rx := []; tx := [] |}
           "write failed: device disconnected" Ha Hb);
    reflexivity.
Defined.

(** * Properties of the notation parser *)

Import ChessNotationParser.

Lemma is_file_In (c : ascii) :
  is_file c = true -> In c (list_ascii_of_string CoordinateConverter.files).
Proof.
  intros H.
  assert (E : existsb (Ascii.eqb c)
                      (list_ascii_of_string CoordinateConverter.files) = true).
  { revert H. destruct c as [[] [] [] [] [] [] [] []];
      vm_compute; intros H; first [reflexivity | discriminate H]. }
  apply existsb_exists in E. destruct E as (d & Hd & E).
  apply Ascii.eqb_eq in E. subst d. exact Hd.
Qed.

Lemma is_rank_In (c : ascii) :
  is_rank c = true -> In c (list_ascii_of_string CoordinateConverter.ranks).
Proof.
  intros H.
  assert (E : existsb (Ascii.eqb c)
                      (list_ascii_of_string CoordinateConverter.ranks) = true).
  { revert H. destruct c as [[] [] [] [] [] [] [] []];
      vm_compute; intros H; first [reflexivity | discriminate H]. }
  apply existsb_exists in E. destruct E as (d & Hd & E).
  apply Ascii.eqb_eq in E. subst d. exact Hd.
Qed.

Lemma match_coordinate_valid (s a b : string) :
  match_coordinate s = Some (a, b) -> In a all_squares /\ In b all_squares.
Proof.
  unfold match_coordinate.
  destruct s as [| f1 [| r1 [| f2 [| r2 rest]]]]; try discriminate.
  destruct (is_file f1 && is_rank r1 && is_file f2 && is_rank r2 && at_end rest)
    eqn:Hc; [| discriminate].
  intros H. injection H as <- <-.
  rewrite !andb_true_iff in Hc. destruct Hc as ((((H1 & H2) & H3) & H4) & _).
  split; apply in_all_squares; auto using is_file_In, is_rank_In.
Qed.

Lemma match_castling_cases (s t : string) :
  match_castling s = Some t -> t = "O-O-O" \/ t = "O-O".
Proof.
  unfold match_castling.
  destruct (String.prefix "O-O-O" s
            && check_suffix (substring 5 (String.length s - 5) s));
    [intros H; injection H as <-; auto |].
  destruct (String.prefix "O-O" s
            && check_suffix (substring 3 (String.length s - 3) s));
    [intros H; injection H as <-; auto | discriminate].
Qed.

Lemma match_promotion_valid (s : string) (f r : ascii) :
  match_promotion s = Some (f, r) ->
  is_file f = true /\ (r = "1"%char \/ r = "8"%char).
Proof.
  unfold match_promotion.
  destruct s as [| f' [| r' [| eq [| p rest]]]]; try discriminate.
  destruct (is_file f' && (Ascii.eqb r' "1" || Ascii.eqb r' "8")
            && Ascii.eqb eq "=" && is_promoted p && check_suffix rest)
    eqn:Hc; [| discriminate].
  intros H. injection H as <- <-.
  rewrite !andb_true_iff, orb_true_iff, !Ascii.eqb_eq in Hc.
  destruct Hc as ((((Hf & Hr) & _) & _) & _). auto.
Qed.

(** X16. A move written as two valid squares one after the other, such as
    e2e4, is parsed into exactly these two squares. *)
Theorem parse_move_coordinate (a b : string) :
  In a all_squares -> In b all_squares ->
  parse_move (a ++ b) = Ok (a, b).
Proof.
  intros Ha Hb.
  assert (Hall : forallb (fun a => forallb (fun b =>
            match parse_move (a ++ b) with
            | Ok (a', b') => String.eqb a' a && String.eqb b' b
            | Raise_ _ => false
            end) all_squares) all_squares = true)
    by (vm_compute; reflexivity).
  rewrite forallb_forall in Hall. specialize (Hall a Ha).
  rewrite forallb_forall in Hall. specialize (Hall b Hb).
  destruct (parse_move (a ++ b)) as [[a' b'] | e]; [| discriminate].
  apply andb_true_iff in Hall. destruct Hall as [Ea Eb].
  apply String.eqb_eq in Ea, Eb. subst. reflexivity.
Qed.

Lemma parse_move_coordinate_witness :
  In "g1" all_squares /\ In "f3" all_squares
  /\ parse_move ("g1" ++ "f3") = Ok ("g1", "f3").
Proof.
  assert (Ha : In "g1" all_squares) by (vm_compute; tauto).
  assert (Hb : In "f3" all_squares) by (vm_compute; tauto).
  split; [exact Ha | split; [exact Hb |]].
  exact (parse_move_coordinate "g1" "f3" Ha Hb).
Defined.

(** X17. Whatever [parse_move] returns is a pair of valid squares, so the
    planner accepts it: [plan_path] on the pair raises nothing, for any
    flags. *)
Theorem parse_move_gives_plannable_squares (move_str a b : string) :
  parse_move move_str = Ok (a, b) ->
  In a all_squares /\ In b all_squares
  /\ forall is_capture is_white_move,
       exists commands, plan_path a b is_capture is_white_move = Ok commands.
Proof.
  intros H.
  assert (Hv : In a all_squares /\ In b all_squares).
  { unfold parse_move in H.
    destruct (match_coordinate (strip move_str)) as [[a' b'] |] eqn:Hco.
    - injection H as <- <-. exact (match_coordinate_valid _ _ _ Hco).
    - destruct (match_castling (strip move_str)) as [t |] eqn:Hca.
      + destruct (match_castling_cases _ _ Hca) as [-> | ->];
          cbn in H; injection H as <- <-; split; vm_compute; tauto.
      + destruct (match_standard (strip move_str)); [discriminate |].
        destruct (match_promotion (strip move_str)) as [[f r] |] eqn:Hpr;
          [| discriminate].
        injection H as <- <-.
        destruct (match_promotion_valid _ _ _ Hpr) as [Hf Hr].
        apply is_file_In in Hf.
        destruct Hr as [-> | ->]; cbn [Ascii.eqb Bool.eqb];
          split; apply in_all_squares; split; auto; vm_compute; tauto. }
  destruct Hv as [Ha Hb]. split; [exact Ha | split; [exact Hb |]].
  intros is_capture is_white_move. apply plan_path_valid; assumption.
Qed.

Lemma parse_move_gives_plannable_squares_witness :
  In "e7" all_squares /\ In "e8" all_squares
  /\ forall is_capture is_white_move,
       exists commands, plan_path "e7" "e8" is_capture is_white_move = Ok commands.
Proof.
  apply (parse_move_gives_plannable_squares " e8=Q+ " "e7" "e8"). reflexivity.
Defined.

Lemma contains_In (s : string) (c : ascii) :
  contains s c = true <-> In c (list_ascii_of_string s).
Proof.
  unfold contains. rewrite existsb_exists. split.
  - intros (d & Hd & E). apply Ascii.eqb_eq in E. subst d. exact Hd.
  - intros H. exists c. split; [exact H | apply Ascii.eqb_refl].
Qed.

Lemma is_valid_square_iff (s : string) :
  is_valid_square s = true <-> In s all_squares.
Proof.
  split.
  - destruct s as [| f [| r [| ? ?]]]; try discriminate.
    cbn [is_valid_square]. rewrite andb_true_iff, !contains_In.
    intros [Hf Hr]. apply in_all_squares. auto.
  - intros Hin. destruct (all_squares_two_chars s Hin) as (f & r & ->).
    apply in_all_squares in Hin. cbn [is_valid_square].
    rewrite andb_true_iff, !contains_In. exact Hin.
Qed.

(** X18. The parser's [is_valid_square] accepts exactly the 64 squares in
    lower case (unlike [chess_to_grid] it does not accept an upper-case
    file). On them [square_to_coords] returns the 0-based file and rank
    indices (f, r), both in 0..7, and the converter's points for the square
    are (2f, 2r+1) for the channel and (2f+1, 2r+2) for the center; on every
    other string [square_to_coords] raises [ValueError("Invalid square: s")]. *)
Theorem square_to_coords_agrees_with_converter (s : string) :
  (is_valid_square s = true <-> In s all_squares)
  /\ (In s all_squares ->
      exists f r,
        square_to_coords s = Ok (f, r)
        /\ 0 <= f <= 7 /\ 0 <= r <= 7
        /\ chess_to_grid s true = Ok (mkPos (2 * f) (2 * r + 1))
        /\ chess_to_grid s false = Ok (mkPos (2 * f + 1) (2 * r + 2)))
  /\ (~ In s all_squares ->
      square_to_coords s = Raise_ (ValueError ("Invalid square: " ++ s)%string)).
Proof.
  split; [apply is_valid_square_iff |]. split.
  - intros Hin.
    assert (Hall : forallb (fun s =>
              match square_to_coords s, chess_to_grid s true,
                    chess_to_grid s false with
              | Ok (f, r), Ok pc, Ok p =>
                  (0 <=? f) && (f <=? 7) && (0 <=? r) && (r <=? 7)
                  && Pos_eqb pc (mkPos (2 * f) (2 * r + 1))
                  && Pos_eqb p (mkPos (2 * f + 1) (2 * r + 2))
              | _, _, _ => false
              end) all_squares = true)
      by (vm_compute; reflexivity).
    rewrite forallb_forall in Hall. specialize (Hall s Hin).
    destruct (square_to_coords s) as [[f r] | e]; [| discriminate].
    destruct (chess_to_grid s true) as [pc | e]; [| discriminate].
    destruct (chess_to_grid s false) as [p | e]; [| discriminate].
    rewrite !andb_true_iff, !Z.leb_le, !Pos_eqb_eq in Hall.
    destruct Hall as (((((H1 & H2) & H3) & H4) & ->) & ->).
    exists f, r. repeat split; assumption.
  - intros Hout. unfold square_to_coords.
    destruct (is_valid_square s) eqn:Hv; [| reflexivity].
    exfalso. apply Hout, is_valid_square_iff, Hv.
Qed.

Lemma square_to_coords_agrees_with_converter_witness :
  (exists f r,
     square_to_coords "e4" = Ok (f, r)
     /\ 0 <= f <= 7 /\ 0 <= r <= 7
     /\ chess_to_grid "e4" true = Ok (mkPos (2 * f) (2 * r + 1))
     /\ chess_to_grid "e4" false = Ok (mkPos (2 * f + 1) (2 * r + 2)))
  /\ square_to_coords "E4" = Raise_ (ValueError ("Invalid square: " ++ "E4")%string).
Proof.
  split.
  - apply (proj1 (proj2 (square_to_coords_agrees_with_converter "e4"))).
    vm_compute. tauto.
  - apply (proj2 (proj2 (square_to_coords_agrees_with_converter "E4"))).
    vm_compute. intuition discriminate.
Defined.

(** X19. Moves in standard algebraic notation are refused. For valid
    squares, a bare destination (e4), a piece move (Nf3, Nxf3), a pawn
    capture (exd5), each with or without a final + or #, and a coordinate
    move with an x (e4xd5) or with a check or mate mark (e2e4+, e2e4#), make
    [parse_move] raise the ValueError that asks for coordinate notation;
    none is parsed. *)
Theorem standard_notation_is_refused (from_square to_square move_str : string) :
  In from_square all_squares -> In to_square all_squares ->
  In move_str (san_to to_square ++ marked_coordinate from_square to_square) ->
  parse_move move_str = Raise_ (needs_board_state move_str).
Proof.
  intros Ha Hb Hin.
  assert (Hcheck : forall m,
             match parse_move m with
             | Raise_ (ValueError msg) =>
                 match needs_board_state m with
                 | ValueError msg' => String.eqb msg msg'
                 end
             | Ok _ => false
             end = true ->
             parse_move m = Raise_ (needs_board_state m)).
  { intros m H. destruct (parse_move m) as [? | [msg]]; [discriminate |].
    unfold needs_board_state in *. apply String.eqb_eq in H. subst msg.
    reflexivity. }
  apply Hcheck. apply in_app_or in Hin. destruct Hin as [Hin | Hin].
  - assert (Hall : forallb (fun b => forallb (fun m =>
              match parse_move m with
              | Raise_ (ValueError msg) =>
                  match needs_board_state m with
                  | ValueError msg' => String.eqb msg msg'
                  end
              | Ok _ => false
              end) (san_to b)) all_squares = true)
      by (vm_compute; reflexivity).
    rewrite forallb_forall in Hall. specialize (Hall _ Hb).
    rewrite forallb_forall in Hall. exact (Hall _ Hin).
  - assert (Hall : forallb (fun a => forallb (fun b => forallb (fun m =>
              match parse_move m with
              | Raise_ (ValueError msg) =>
                  match needs_board_state m with
                  | ValueError msg' => String.eqb msg msg'
                  end
              | Ok _ => false
              end) (marked_coordinate a b)) all_squares) all_squares = true)
      by (vm_compute; reflexivity).
    rewrite forallb_forall in Hall. specialize (Hall _ Ha).
    rewrite forallb_forall in Hall. specialize (Hall _ Hb).
    rewrite forallb_forall in Hall. exact (Hall _ Hin).
Qed.

Lemma standard_notation_is_refused_witness :
  In "e4" all_squares /\ In "d5" all_squares
  /\ In "exd5+" (san_to "d5" ++ marked_coordinate "e4" "d5")
  /\ parse_move "exd5+" = Raise_ (needs_board_state "exd5+").
Proof.
  assert (Ha : In "e4" all_squares) by (vm_compute; tauto).
  assert (Hb : In "d5" all_squares) by (vm_compute; tauto).
  assert (Hm : In "exd5+" (san_to "d5" ++ marked_coordinate "e4" "d5"))
    by (vm_compute; tauto).
  split; [exact Ha | split; [exact Hb | split; [exact Hm |]]].
  exact (standard_notation_is_refused "e4" "d5" "exd5+" Ha Hb Hm).
Defined.

(** X20. A promotion written file, rank 8 or 1, [=], piece (one of N, B, R,
    Q), with or without a final + or #, is parsed as the pawn's move from the
    rank before on the same file: from rank 7 for rank 8, from rank 2 for
    rank 1. The piece letter does not appear in the result. *)
Theorem parse_move_promotion (f piece : ascii) (suffix : string) :
  In f (list_ascii_of_string CoordinateConverter.files) ->
  In piece (list_ascii_of_string "NBRQ") ->
  In suffix [""; "+"; "#"]%string ->
  parse_move (String f (String "8" (String "=" (String piece suffix))))
  = Ok (String f "7", String f "8")
  /\ parse_move (String f (String "1" (String "=" (String piece suffix))))
     = Ok (String f "2", String f "1").
Proof.
  intros Hf Hp Hs. cbn in Hf, Hp, Hs.
  repeat (destruct Hf as [<- | Hf]; [| try contradiction]);
    repeat (destruct Hp as [<- | Hp]; [| try contradiction]);
    repeat (destruct Hs as [<- | Hs]; [| try contradiction]);
    split; reflexivity.
Qed.

Lemma parse_move_promotion_witness :
  parse_move (String "e" (String "8" (String "=" (String "Q" "+"))))
  = Ok (String "e" "7", String "e" "8")
  /\ parse_move (String "e" (String "1" (String "=" (String "Q" "+"))))
     = Ok (String "e" "2", String "e" "1").
Proof.
  apply (parse_move_promotion "e" "Q" "+"); cbn; tauto.
Defined.

(** * Properties of the polling loop *)

Import CallRobot.

Lemma process_moves_count (pending : list MoveRecord) :
  forall n w n' w',
    process_moves pending n w = Returns (n', w') ->
    n' = (n + List.length pending)%nat.
Proof.
  induction pending as [| move rest IH]; intros n w n' w' H;
    cbn [process_moves List.length] in *.
  - injection H as <- <-. lia.
  - destruct (is_white move || String.eqb (source move) "coach").
    + destruct (execute_chess_move _ _ _ _ _ _) as [[success w1] |];
        [| discriminate].
      apply IH in H. lia.
    + apply IH in H. lia.
Qed.

(** X21. When a polling round returns, the cursor [processed_count] stands
    at the end of the fetched list (or where it was, if the list is
    shorter), whether the moves succeeded or failed; polling the same list
    again then executes nothing and changes nothing, so no move is executed
    twice. *)
Theorem poll_advances_cursor_to_the_end
        (moves : list MoveRecord) (n n' : nat) (w w' : World) :
  poll moves n w = Returns (n', w') ->
  n' = Nat.max n (List.length moves)
  /\ poll moves n' w' = Returns (n', w').
Proof.
  unfold poll. intros H. apply process_moves_count in H.
  rewrite length_skipn in H.
  assert (Hn : n' = Nat.max n (List.length moves)) by lia.
  split; [exact Hn |].
  rewrite skipn_all2 by lia. reflexivity.
Qed.

Lemma poll_advances_cursor_to_the_end_witness :
  let moves := [ {| move_from := "e2"; move_to := "e4"; is_white := true;
                    is_capture := false; is_promotion := false;
                    is_castle := false; source := "board" |};
                 {| move_from := "e7"; move_to := "e5"; is_white := false;
                    is_capture := false; is_promotion := false;
                    is_castle := false; source := "board" |};
                 {| move_from := "z9"; move_to := "e5"; is_white := true;
                    is_capture := false; is_promotion := false;
                    is_castle := false; source := "board" |} ] in
  let w := {| arduino := None; converter := init; stdout := [] |} in
  exists w',
    poll moves 0 w = Returns (3%nat, w')
    /\ 3%nat = Nat.max 0 (List.length moves)
    /\ poll moves 3 w' = Returns (3%nat, w').
Proof.
  cbv zeta. eexists. split; [cbv; reflexivity |].
  apply (poll_advances_cursor_to_the_end
           [ {| move_from := "e2"; move_to := "e4"; is_white := true;
                is_capture := false; is_promotion := false;
                is_castle := false; source := "board" |};
             {| move_from := "e7"; move_to := "e5"; is_white := false;
                is_capture := false; is_promotion := false;
                is_castle := false; source := "board" |};
             {| move_from := "z9"; move_to := "e5"; is_white := true;
                is_capture := false; is_promotion := false;
                is_castle := false; source := "board" |} ]
           0 3 {| arduino := None; converter := init; stdout := [] |}).
  cbv. reflexivity.
Defined.

(** X22. Moves that are neither white's nor issued by the coach are passed
    over: a round over such moves only advances the cursor; nothing is
    planned, printed or sent, and no discard slot is taken. *)
Theorem other_moves_are_skipped (moves : list MoveRecord) (n : nat) (w : World) :
  forallb (fun move => negb (executed move)) (skipn n moves) = true ->
  poll moves n w = Returns (Nat.max n (List.length moves), w).
Proof.
  unfold poll. intros Hskip.
  assert (Hgen : forall pending k,
             forallb (fun move => negb (executed move)) pending = true ->
             process_moves pending k w
             = Returns ((k + List.length pending)%nat, w)).
  { induction pending as [| move rest IH]; intros k Hp;
      cbn [process_moves List.length].
    - rewrite Nat.add_0_r. reflexivity.
    - cbn [forallb] in Hp. apply andb_true_iff in Hp. destruct Hp as [Hm Hr].
      unfold executed in Hm. apply negb_true_iff in Hm. rewrite Hm.
      rewrite IH by exact Hr. do 2 f_equal. lia. }
  rewrite Hgen by exact Hskip. rewrite length_skipn. do 2 f_equal. lia.
Qed.

Lemma other_moves_are_skipped_witness :
  let moves := [ {| move_from := "e7"; move_to := "e5"; is_white := false;
                    is_capture := false; is_promotion := false;
                    is_castle := false; source := "board" |} ] in
  let w := {| arduino := Some {| write_error := None; rx := []; tx := [] |};
              converter := init; stdout := [] |} in
  poll moves 0 w = Returns (Nat.max 0 (List.length moves), w).
Proof.
  cbv zeta.
  apply (other_moves_are_skipped
           [ {| move_from := "e7"; move_to := "e5"; is_white := false;
                is_capture := false; is_promotion := false;
                is_castle := false; source := "board" |} ] 0).
  reflexivity.
Defined.

Lemma execute_in_simulation_returns
      (a b : string) (is_capture : bool) (promotion_piece : option string)
      (is_castling : bool) (w : World) :
  arduino w = None ->
  exists ok w',
    execute_chess_move a b is_capture promotion_piece is_castling w
    = Returns (ok, w')
    /\ arduino w' = None.
Proof.
  intros Hsim. unfold execute_chess_move.
  destruct (plan_commands a b is_capture promotion_piece is_castling (converter w))
    as [[commands conv] | e].
  - rewrite send_all_simulation by exact Hsim. do 2 eexists.
    split; reflexivity.
  - do 2 eexists. split; [reflexivity | exact Hsim].
Qed.

(** X23. Without a connection (simulation mode) a polling round always
    returns, whatever the fetched moves are - also when squares are invalid
    and a move fails: every move is gone through, the cursor ends at the end
    of the list, and there is still no connection. *)
Theorem poll_in_simulation_terminates
        (moves : list MoveRecord) (n : nat) (w : World) :
  arduino w = None ->
  exists w',
    poll moves n w = Returns (Nat.max n (List.length moves), w')
    /\ arduino w' = None.
Proof.
  intros Hsim. unfold poll.
  assert (Hgen : forall pending k w0,
             arduino w0 = None ->
             exists w', process_moves pending k w0
                        = Returns ((k + List.length pending)%nat, w')
                        /\ arduino w' = None).
  { induction pending as [| move rest IH]; intros k w0 H0;
      cbn [process_moves List.length].
    - exists w0. rewrite Nat.add_0_r. auto.
    - destruct (is_white move || String.eqb (source move) "coach").
      + destruct (execute_in_simulation_returns
                    (move_from move) (move_to move) (is_capture move)
                    (if is_promotion move then Some "Q" else None)
                    (is_castle move)
                    (print (move_details move)
                       (print (move_header move k) w0)) H0)
          as (ok & w1 & Hexec & H1).
        rewrite Hexec.
        destruct (IH (S k) (if ok then print "✅ Move executed successfully!" w1
                            else print "❌ Failed to execute move!" w1))
          as (w' & Hrun & H').
        { destruct ok; exact H1. }
        exists w'. rewrite Hrun. split; [do 2 f_equal; lia | exact H'].
      + destruct (IH (S k) w0 H0) as (w' & Hrun & H').
        exists w'. rewrite Hrun. split; [do 2 f_equal; lia | exact H']. }
  destruct (Hgen (skipn n moves) n w Hsim) as (w' & Hrun & H').
  exists w'. rewrite Hrun, length_skipn. split; [do 2 f_equal; lia | exact H'].
Qed.

Lemma poll_in_simulation_terminates_witness :
  let moves := [ {| move_from := "z9"; move_to := "e5"; is_white := true;
                    is_capture := false; is_promotion := false;
                    is_castle := false; source := "board" |};
                 {| move_from := "e7"; move_to := "e8"; is_white := false;
                    is_capture := false; is_promotion := true;
                    is_castle := false; source := "coach" |} ] in
  let w := {| arduino := None; converter := init; stdout := [] |} in
  exists w',
    poll moves 0 w = Returns (Nat.max 0 (List.length moves), w')
    /\ arduino w' = None.
Proof.
  cbv zeta.
  apply (poll_in_simulation_terminates
           [ {| move_from := "z9"; move_to := "e5"; is_white := true;
                is_capture := false; is_promotion := false;
                is_castle := false; source := "board" |};
             {| move_from := "e7"; move_to := "e8"; is_white := false;
                is_capture := false; is_promotion := true;
                is_castle := false; source := "coach" |} ]
           0 {| arduino := None; converter := init; stdout := [] |}).
  reflexivity.
Defined.

(** * The shape of plain moves and captures *)

(** X24. A move between valid squares that is neither a capture nor one of
    the castling pairs is planned as [lower], [home] and one raise/lower
    cycle: the piece is lifted on the source center and lowered on the
    destination center, with a single raise, and it crosses no square center
    on the way. *)
Theorem plain_move_is_one_cycle (a b : string) (is_white_move : bool) :
  In a all_squares -> In b all_squares -> _is_castling_move a b = false ->
  exists commands pa pb,
    plan_path a b false is_white_move = Ok commands
    /\ chess_to_grid a false = Ok pa /\ chess_to_grid b false = Ok pb
    /\ commands = [Lower; Home] ++ plain_cycle pa pb
    /\ map (fun c => (lift c, settle c)) (cycles commands) = [(pa, pb)]
    /\ count_raise commands = 1%nat
    /\ clear_of_centers commands = true.
Proof.
  intros Ha Hb Hcastle.
  assert (Hall : forallb (fun a => forallb (fun b => forallb (fun w =>
            _is_castling_move a b ||
            match plan_path a b false w, chess_to_grid a false,
                  chess_to_grid b false with
            | Ok commands, Ok pa, Ok pb =>
                match map (fun c => (lift c, settle c)) (cycles commands) with
                | [(l1, s1)] => Pos_eqb l1 pa && Pos_eqb s1 pb
                | _ => false
                end
                && Nat.eqb (count_raise commands) 1
            | _, _, _ => false
            end) [true; false]) all_squares) all_squares = true)
    by (vm_compute; reflexivity).
  rewrite forallb_forall in Hall. specialize (Hall a Ha).
  rewrite forallb_forall in Hall. specialize (Hall b Hb).
  rewrite forallb_forall in Hall.
  specialize (Hall is_white_move ltac:(destruct is_white_move; simpl; tauto)).
  rewrite Hcastle in Hall. cbn [orb] in Hall.
  destruct (plain_paths_clear_of_centers a b is_white_move Ha Hb)
    as (commands & Hplan & Hclear).
  rewrite Hplan in Hall.
  destruct (chess_to_grid a false) as [pa | e] eqn:Epa; [| discriminate].
  destruct (chess_to_grid b false) as [pb | e] eqn:Epb; [| discriminate].
  exists commands, pa, pb.
  split; [exact Hplan |]. split; [reflexivity |]. split; [reflexivity |].
  apply andb_true_iff in Hall. destruct Hall as [Hcyc Hraise].
  split.
  { unfold plan_path in Hplan. rewrite Hcastle, Epa, Epb in Hplan.
    cbn [bind] in Hplan. injection Hplan as <-. unfold plain_cycle.
    repeat (rewrite <- app_assoc || cbn [app]). reflexivity. }
  split; [| split; [apply Nat.eqb_eq, Hraise | exact Hclear]].
  destruct (map (fun c => (lift c, settle c)) (cycles commands))
    as [| [l1 s1] [| ? ?]]; try discriminate.
  rewrite andb_true_iff, !Pos_eqb_eq in Hcyc. destruct Hcyc as [-> ->].
  reflexivity.
Qed.

Lemma plain_move_is_one_cycle_witness :
  In "g1" all_squares /\ In "f3" all_squares /\
  exists commands pa pb,
    plan_path "g1" "f3" false true = Ok commands
    /\ chess_to_grid "g1" false = Ok pa /\ chess_to_grid "f3" false = Ok pb
    /\ commands = [Lower; Home] ++ plain_cycle pa pb
    /\ map (fun c => (lift c, settle c)) (cycles commands) = [(pa, pb)]
    /\ count_raise commands = 1%nat
    /\ clear_of_centers commands = true.
Proof.
  assert (Ha : In "g1" all_squares) by (vm_compute; tauto).
  assert (Hb : In "f3" all_squares) by (vm_compute; tauto).
  split; [exact Ha | split; [exact Hb |]].
  apply (plain_move_is_one_cycle "g1" "f3" true Ha Hb). reflexivity.
Defined.

(** X25. A capture between valid squares (not a castling pair) is planned
    as two raise/lower cycles. The first lifts the captured piece on the
    destination center and lowers it on the fixed point (1, 0), whatever the
    capturing side and however many captures came before; the second lifts
    the capturing piece on the source center and lowers it on the
    destination center. The captured piece crosses a square center on its
    way exactly when the destination is not on rank 1. *)
Theorem capture_is_two_cycles (a b : string) (is_white_move : bool) :
  In a all_squares -> In b all_squares -> _is_castling_move a b = false ->
  exists commands pa pb,
    plan_path a b true is_white_move = Ok commands
    /\ chess_to_grid a false = Ok pa /\ chess_to_grid b false = Ok pb
    /\ map (fun c => (lift c, settle c)) (cycles commands)
       = [(pb, mkPos 1 0); (pa, pb)]
    /\ count_raise commands = 2%nat
    /\ clear_of_centers commands = (y pb =? 2).
Proof.
  intros Ha Hb Hcastle.
  destruct (capture_cycles a b is_white_move Ha Hb Hcastle)
    as (commands & pa & pb & Hplan & Epa & Epb & Hcyc).
  destruct (capture_paths_and_centers a b is_white_move Ha Hb Hcastle)
    as (commands' & pb' & Hplan' & Epb' & Hclear).
  rewrite Hplan in Hplan'. injection Hplan' as <-.
  rewrite Epb in Epb'. injection Epb' as <-.
  exists commands, pa, pb.
  split; [exact Hplan |]. split; [exact Epa |]. split; [exact Epb |].
  split; [exact Hcyc |]. split; [| exact Hclear].
  unfold plan_path in Hplan. rewrite Hcastle, Epa, Epb in Hplan.
  cbn [bind] in Hplan. injection Hplan as <-.
  unfold count_raise.
  assert (Hm : forall l, forallb is_move l = true ->
                         filter (fun c => match c with Raise => true | _ => false end) l
                         = []).
  { induction l as [| c l IH]; [reflexivity |]. cbn [forallb filter].
    intros H. apply andb_true_iff in H. destruct H as [Hc Hl].
    destruct c; try discriminate. auto. }
  repeat first
    [ rewrite filter_app
    | rewrite (Hm _ (edge_movement_moves _ _ _))
    | rewrite (Hm _ (discard_movement_moves _ _))
    | progress cbn [filter app List.length] ].
  reflexivity.
Qed.

Lemma capture_is_two_cycles_witness :
  In "e4" all_squares /\ In "d5" all_squares /\
  exists commands pa pb,
    plan_path "e4" "d5" true false = Ok commands
    /\ chess_to_grid "e4" false = Ok pa /\ chess_to_grid "d5" false = Ok pb
    /\ map (fun c => (lift c, settle c)) (cycles commands)
       = [(pb, mkPos 1 0); (pa, pb)]
    /\ count_raise commands = 2%nat
    /\ clear_of_centers commands = (y pb =? 2).
Proof.
  assert (Ha : In "e4" all_squares) by (vm_compute; tauto).
  assert (Hb : In "d5" all_squares) by (vm_compute; tauto).
  split; [exact Ha | split; [exact Hb |]].
  apply (capture_is_two_cycles "e4" "d5" false Ha Hb). reflexivity.
Defined.
